(** * Microgreen portal backend: inventory ledger, order engine, forecast cache

    A shallow embedding of [backend/main.py].  The module-level Python
    lists and dicts ([inventory_items], [inventory_logs], [orders],
    [notifications], [forecasts_cache]) are the fields of one [World]
    record that every endpoint threads through an exception-and-state
    monad: a raised [HTTPException] keeps whatever was written to the
    store before it, exactly as in the Python process.

    Conventions.
    - Python [int] is [Z]; Python [float] is an exact rational [Q].
    - A [datetime] is a number of seconds ([Z]), a [date] a number of days,
      both counted from 1970-01-01; [date_of] is the [.date()] projection.
      Python's dates stop at the years 1 and 9999: arithmetic that leaves
      that range raises [OverflowError], which no handler of the module
      catches where it is modelled here ([Stopped]).
    - [uuid.uuid4()] draws the next value of an arbitrary supply [uuid_of];
      [datetime.now()] reads the [clock] of the world.
    - [print] calls are dropped; [send_email_notification] swallows every
      failure and touches nothing in the store, so only the fact that it
      was called is recorded, in [email_calls]. *)

From stdpp Require Import base strings list gmap pretty sorting.
From Stdlib Require Import ZArith QArith.

Local Open Scope Z_scope.

(** ** Data model *)

Module InventoryItem.
Record t := mk {
  id : string;
  variety : string;
  trayCount : Z;
  harvestDate : Z;
  weightKg : option Q;
  status : string
}.
End InventoryItem.

Module InventoryLog.
Record t := mk {
  id : string;
  itemId : string;
  change : Z;
  reason : string;
  timestamp : Z;
  userId : string
}.
End InventoryLog.

Module OrderItem.
Record t := mk {
  id : string;
  orderId : string;
  inventoryItemId : string;
  variety : string;
  quantity : Z;
  price_per_tray : option Q
}.
End OrderItem.

Module Order.
Record t := mk {
  id : string;
  customerName : string;
  customerContact : option string;
  orderDate : Z;
  pickupDate : Z;
  status : string;
  items : list OrderItem.t;
  total_price : option Q
}.
End Order.

Module SalesRecord.
Record t := mk {
  id : string;
  date : Z;
  totalTraysSold : Z;
  revenue : option Q
}.
End SalesRecord.

Module ForecastPoint.
Record t := mk {
  date : Z;
  predictedTrays : Q
}.
End ForecastPoint.

Module Forecast.
Record t := mk {
  id : string;
  periodStart : Z;
  periodEnd : Z;
  predictions : list ForecastPoint.t;
  createdAt : Z
}.
End Forecast.

Module Notification.
Record t := mk {
  id : string;
  message : string;
  type : string;
  timestamp : Z;
  is_read : bool
}.
End Notification.

Module NotificationCreate.
Record t := mk {
  message : string;
  type : string
}.
End NotificationCreate.

Module CropVariety.
Record t := mk {
  id : Z;
  name : string;
  grow_cycle_days : Z;
  expected_yield_per_tray : Q
}.
End CropVariety.

Module TrayPlanting.
Record t := mk {
  id : Z;
  variety_id : Z;
  plant_date : Z;
  expected_harvest_date : Z;
  status : string;
  tray_count : Z
}.
End TrayPlanting.

Module PlantingCreate.
Record t := mk {
  variety_id : Z;
  plant_date : Z;
  tray_count : Z;
  notes : option string
}.
End PlantingCreate.

(** Request bodies.  [InventoryItemBody] is the pydantic [InventoryItem]
    as parsed from a request: [id] and [weightKg] are the two fields with
    a default, and [None] records that the field was not supplied (what
    [dict(exclude_unset=True)] looks at). *)
Module InventoryItemBody.
Record t := mk {
  id : option string;
  variety : string;
  trayCount : Z;
  harvestDate : Z;
  weightKg : option (option Q);
  status : string
}.
End InventoryItemBody.

(** The fields of a posted [OrderItem] that [create_order] reads; it
    overwrites [id] and [orderId]. *)
Module OrderItemBody.
Record t := mk {
  inventoryItemId : string;
  variety : string;
  quantity : Z;
  price_per_tray : option Q
}.
End OrderItemBody.

(** The fields of a posted [Order] that survive [create_order]; it
    overwrites [id], [orderDate], [items], [total_price] and [status]. *)
Module OrderBody.
Record t := mk {
  customerName : string;
  customerContact : option string;
  pickupDate : Z;
  items : list OrderItemBody.t
}.
End OrderBody.

(** Values fixed once, when the module is imported: the class-level
    defaults [id: str = str(uuid.uuid4())] and [createdAt = datetime.now()]
    of the pydantic models that the endpoints never override, and the
    threshold read from the environment. *)
Record Settings := mkSettings {
  low_stock_threshold : Z;
  InventoryLog_id : string;
  SalesRecord_id : string;
  Forecast_id : string;
  Forecast_createdAt : Z
}.

(** ** The store

    [forecasts_cache] is keyed in Python by the string
    [f"{start_date.isoformat()}-{weeks}"]; an ISO date has a fixed width,
    so that string determines the pair (start date, weeks) and the pair is
    the key here.  [clock] and [uuid_draws] stand for the environment:
    the time that [datetime.now()] and [date.today()] read, and the number
    of uuids drawn so far. *)

Record World := mkWorld {
  inventory_items : list InventoryItem.t;
  inventory_logs : list InventoryLog.t;
  orders : list Order.t;
  notifications : list Notification.t;
  forecasts_cache : gmap (Z * Z) Forecast.t;
  email_calls : list (string * string);
  clock : Z;
  uuid_draws : nat
}.

Definition set_inventory_items (l : list InventoryItem.t) (w : World) : World :=
  mkWorld l (inventory_logs w) (orders w) (notifications w)
          (forecasts_cache w) (email_calls w) (clock w) (uuid_draws w).

Definition set_inventory_logs (l : list InventoryLog.t) (w : World) : World :=
  mkWorld (inventory_items w) l (orders w) (notifications w)
          (forecasts_cache w) (email_calls w) (clock w) (uuid_draws w).

Definition set_orders (l : list Order.t) (w : World) : World :=
  mkWorld (inventory_items w) (inventory_logs w) l (notifications w)
          (forecasts_cache w) (email_calls w) (clock w) (uuid_draws w).

Definition set_notifications (l : list Notification.t) (w : World) : World :=
  mkWorld (inventory_items w) (inventory_logs w) (orders w) l
          (forecasts_cache w) (email_calls w) (clock w) (uuid_draws w).

Definition set_forecasts_cache (c : gmap (Z * Z) Forecast.t) (w : World) : World :=
  mkWorld (inventory_items w) (inventory_logs w) (orders w) (notifications w)
          c (email_calls w) (clock w) (uuid_draws w).

Definition set_email_calls (l : list (string * string)) (w : World) : World :=
  mkWorld (inventory_items w) (inventory_logs w) (orders w) (notifications w)
          (forecasts_cache w) l (clock w) (uuid_draws w).

Definition set_uuid_draws (n : nat) (w : World) : World :=
  mkWorld (inventory_items w) (inventory_logs w) (orders w) (notifications w)
          (forecasts_cache w) (email_calls w) (clock w) n.

(** ** Exceptions and state *)

Record HTTPException := mkHTTPException {
  status_code : Z;
  detail : string
}.

Inductive outcome (A : Type) : Type :=
| Raised (e : HTTPException)
| Returned (a : A).
Arguments Raised {A} e.
Arguments Returned {A} a.

Definition M (A : Type) : Type := World → outcome A * World.

(** Exceptions that are no [HTTPException].  The endpoints that compute
    with dates can raise one outside of every [try]: the call stops there
    and the server answers 500. *)
Inductive BuiltinError : Type :=
| OverflowError.

(** How a call of such an endpoint ends. *)
Inductive ending (A : Type) : Type :=
| Stopped (e : BuiltinError)
| Ended (o : outcome A).
Arguments Stopped {A} e.
Arguments Ended {A} o.

Definition ret {A} (a : A) : M A := λ w, (Returned a, w).

Definition bind {A B} (m : M A) (k : A → M B) : M B :=
  λ w, match m w with
       | (Returned a, w') => k a w'
       | (Raised e, w') => (Raised e, w')
       end.

Definition raise {A} (code : Z) (msg : string) : M A :=
  λ w, (Raised (mkHTTPException code msg), w).

(** [try: body except HTTPException as e: handler e] *)
Definition try_except {A} (body : M A) (handler : HTTPException → M A) : M A :=
  λ w, match body w with
       | (Returned a, w') => (Returned a, w')
       | (Raised e, w') => handler e w'
       end.

Definition get : M World := λ w, (Returned w, w).
Definition modify (f : World → World) : M unit := λ w, (Returned tt, f w).

Declare Scope portal_scope.
Delimit Scope portal_scope with portal.
Notation "'let*' x ':=' m 'in' k" := (bind m (λ x, k))
  (at level 10, x name, m at level 100, k at level 200) : portal_scope.
Notation "m ';;' k" := (bind m (λ _, k))
  (at level 100, k at level 200, right associativity) : portal_scope.
Local Open Scope portal_scope.

Definition result {A} (m : M A) (w : World) : outcome A := (m w).1.
Definition after {A} (m : M A) (w : World) : World := (m w).2.

(** [next((i for i, x in enumerate(l) if P x), None)], together with the
    element [l[i]] that the code reads right after. *)
Definition find_index {A} (P : A → Prop) `{∀ x, Decision (P x)}
    (l : list A) : option (nat * A) := list_find P l.
Arguments find_index {A} P {_} l /.

(** ** Dates, means and rounding *)

Definition seconds_per_day : Z := 86400.
Definition days (n : Z) : Z := n * seconds_per_day.
Definition date_of (t : Z) : Z := t `div` seconds_per_day.

(** [date.min] is 0001-01-01 and [date.max] is 9999-12-31;
    [datetime.min] is the first second of the one and [datetime.max] lies
    in the last second of the other. *)
Definition date_min : Z := -719162.
Definition date_max : Z := 2932896.
Definition datetime_min : Z := days date_min.
Definition datetime_max : Z := days (date_max + 1) - 1.

Definition in_date_range (d : Z) : Prop := date_min ≤ d ≤ date_max.
Definition in_datetime_range (t : Z) : Prop := datetime_min ≤ t ≤ datetime_max.

(** [timedelta(days=n)] raises [OverflowError] beyond this many days. *)
Definition timedelta_max_days : Z := 999999999.

(** [d + timedelta(days=n)] on a [date], and [t + timedelta(days=n)] on a
    [datetime]; [None] is the [OverflowError] that either the [timedelta]
    or the sum raises. *)
Definition date_plus_days (d n : Z) : option Z :=
  if bool_decide (Z.abs n ≤ timedelta_max_days ∧ in_date_range (d + n))
  then Some (d + n) else None.

Definition datetime_plus_days (t n : Z) : option Z :=
  if bool_decide (Z.abs n ≤ timedelta_max_days ∧ in_datetime_range (t + days n))
  then Some (t + days n) else None.

(** [t - timedelta(days=n)] *)
Definition datetime_minus_days (t n : Z) : option Z :=
  if bool_decide (Z.abs n ≤ timedelta_max_days ∧ in_datetime_range (t - days n))
  then Some (t - days n) else None.

Definition sumZ (l : list Z) : Z := foldr Z.add 0 l.

(** Round to the nearest integer, ties to even (Python's [round]). *)
Definition round_half_even (q : Q) : Z :=
  let n := Qnum q in
  let d := Z.pos (Qden q) in
  let f := n `div` d in
  let r := 2 * (n `mod` d) in
  if r <? d then f
  else if d <? r then f + 1
  else if Z.even f then f else f + 1.

(** [round(q, ndigits)] *)
Definition round_to (ndigits : positive) (q : Q) : Q :=
  let scale := Pos.pow 10 ndigits in
  Qmake (round_half_even (Qmult q (Qmake (Z.pos scale) 1))) scale.

(** [df["y"].mean() if not df.empty else 0] *)
Definition mean_or_zero (ys : list Z) : Q :=
  match ys with
  | [] => 0%Q
  | _ => Qmake (sumZ ys) 1 / Qmake (Z.of_nat (length ys)) 1
  end%Q.

(** ** Example stores

    Concrete requests and stores on which the endpoints are evaluated
    further down. *)

Definition example_settings : Settings :=
  mkSettings 5 "log-id" "sales-id" "forecast-id" 0.

Definition example_uuid (n : nat) : string := "uuid-" +:+ pretty n.

(** An oracle whose every call raises. *)
Definition failing_oracle (df : list (Z * Z)) (periods : Z)
    : option (list (Z * Q)) := None.

(** An oracle that answers with an empty frame. *)
Definition silent_oracle (df : list (Z * Z)) (periods : Z)
    : option (list (Z * Q)) := Some [].

(** Noon of day 100. *)
Definition example_clock : Z := days 100 + 43200.

Definition kale : InventoryItem.t :=
  InventoryItem.mk "A" "Kale" 3 0 None "in-storage".

Definition pea_shoots : InventoryItem.t :=
  InventoryItem.mk "B" "Pea Shoots" 1 0 None "in-storage".

Definition radish : InventoryItem.t :=
  InventoryItem.mk "C" "Radish" 6 0 None "in-storage".

Definition empty_store : World :=
  mkWorld [] [] [] [] ∅ [] example_clock 0.

Definition two_batches : World :=
  mkWorld [kale; pea_shoots] [] [] [] ∅ [] example_clock 0.

Definition radish_store : World :=
  mkWorld [radish] [] [] [] ∅ [] example_clock 0.

Definition kale_request (n : Z) : InventoryItemBody.t :=
  InventoryItemBody.mk None "Kale" n 0 None "in-storage".

Definition order_line (item_id variety : string) (quantity : Z) : OrderItemBody.t :=
  OrderItemBody.mk item_id variety quantity None.

(** Two trays of batch A, then five of batch B, which holds one. *)
Definition short_order : OrderBody.t :=
  OrderBody.mk "Ada" None (days 103)
    [order_line "A" "Kale" 2; order_line "B" "Pea Shoots" 5].

(** Two trays of batch A, then one of a batch that is not in the store. *)
Definition stray_order : OrderBody.t :=
  OrderBody.mk "Ada" None (days 103)
    [order_line "A" "Kale" 2; order_line "Z" "Pea Shoots" 1].

Definition empty_order : OrderBody.t := OrderBody.mk "Ada" None (days 103) [].

Definition stored_order (order_id status : string) (order_date : Z) (quantity : Z)
    : Order.t :=
  Order.mk order_id "Ada" None order_date (order_date + days 2) status
    [OrderItem.mk (order_id +:+ "-1") order_id "A" "Kale" quantity (Some 10%Q)]
    (Some (inject_Z quantity * 10)%Q).

(** The store [two_batches] with one order of two trays of batch A, in the
    given status. *)
Definition store_with_order (status : string) : World :=
  mkWorld [kale; pea_shoots] [] [stored_order "o1" status (days 99) 2] [] ∅ []
    example_clock 0.

(** Three completed orders on three days: one, two and two trays. *)
Definition three_sales : World :=
  mkWorld [kale; pea_shoots] []
    [stored_order "o1" "completed" (days 97) 1;
     stored_order "o2" "completed" (days 98) 2;
     stored_order "o3" "completed" (days 99) 2]
    [] ∅ [] example_clock 0.

Definition log_of (item_id : string) (change : Z) : InventoryLog.t :=
  InventoryLog.mk "log-id" item_id change "Initial harvest" 0 "system".

(** [two_batches] with the log of its two harvests. *)
Definition harvested_store : World :=
  mkWorld [kale; pea_shoots] [log_of "A" 3; log_of "B" 1] [] [] ∅ []
    example_clock 0.

(** Two trays of batch A and one of batch B. *)
Definition small_order : OrderBody.t :=
  OrderBody.mk "Ada" None (days 103)
    [order_line "A" "Kale" 2;
     OrderItemBody.mk "B" "Pea Shoots" 1 (Some (17 # 2)%Q)].

(** Two trays of batch A at the default price and one of batch B at 12. *)
Definition whole_order : OrderBody.t :=
  OrderBody.mk "Ada" None (days 103)
    [order_line "A" "Kale" 2;
     OrderItemBody.mk "B" "Pea Shoots" 1 (Some 12%Q)].

Definition alert_of (nid : string) (is_read : bool) : Notification.t :=
  Notification.mk nid "Low inventory: Kale down to 1 trays" "alert" 0 is_read.

Definition store_with_alerts : World :=
  mkWorld [] [] [] [alert_of "n1" true; alert_of "n2" false; alert_of "n3" false]
    ∅ [] example_clock 0.

Definition planting_of (planting_id : Z) (status : string) (expected : Z)
    : TrayPlanting.t :=
  TrayPlanting.mk planting_id 1 (expected - days 10) expected status 2.

(** Three plantings seen at [example_clock]: one growing and due, one
    growing and not due, one failed. *)
Definition example_plantings : list TrayPlanting.t :=
  [planting_of 1 "growing" (days 99);
   planting_of 4 "growing" (days 105);
   planting_of 2 "failed" (days 90)].

Section Portal.

Variable settings : Settings.
Variable uuid_of : nat → string.

(** The forecasting oracle: [Prophet(...).fit(df)] followed by
    [predict(make_future_dataframe(periods))], as the rows [(ds, yhat)] of
    the frame it returns, or [None] when any of these calls raises. *)
Variable prophet : list (Z * Z) → Z → option (list (Z * Q)).

(** [str(uuid.uuid4())] *)
Definition uuid4 : M string :=
  λ w, (Returned (uuid_of (uuid_draws w)), set_uuid_draws (S (uuid_draws w)) w).

(** [datetime.now()] *)
Definition now : M Z := λ w, (Returned (clock w), w).

Definition send_email_notification (subject body : string) : M unit :=
  modify (λ w, set_email_calls (email_calls w ++ [(subject, body)]) w).

Definition with_trayCount (n : Z) (item : InventoryItem.t) : InventoryItem.t :=
  InventoryItem.mk (InventoryItem.id item) (InventoryItem.variety item) n
    (InventoryItem.harvestDate item) (InventoryItem.weightKg item)
    (InventoryItem.status item).

(** *** The ledger's one write path *)

Definition adjust_inventory (item_id : string) (change : Z) (reason : string)
    (user_id : string) : M unit :=
  let* w := get in
  match find_index (λ item, InventoryItem.id item = item_id) (inventory_items w) with
  | None =>
      raise 404 ("Inventory item " +:+ item_id +:+ " not found for adjustment")
  | Some (index, item) =>
      let current_count := InventoryItem.trayCount item in
      let new_count := current_count + change in
      if new_count <? 0 then
        raise 400 ("Adjustment for item " +:+ item_id
                   +:+ " results in negative inventory (" +:+ pretty new_count
                   +:+ ") for reason: " +:+ reason)
      else
        modify (λ w, set_inventory_items
                       (<[index := with_trayCount new_count item]> (inventory_items w)) w);;
        let* t := now in
        let log_entry :=
          InventoryLog.mk (InventoryLog_id settings) item_id change reason t user_id in
        modify (λ w, set_inventory_logs (inventory_logs w ++ [log_entry]) w);;
        if (change <? 0) && (new_count <? low_stock_threshold settings) then
          let alert_msg := "Low inventory: " +:+ InventoryItem.variety item
                           +:+ " down to " +:+ pretty new_count +:+ " trays" in
          let* nid := uuid4 in
          let* t' := now in
          let notif := Notification.mk nid alert_msg "alert" t' false in
          modify (λ w, set_notifications (notifications w ++ [notif]) w);;
          send_email_notification
            ("Inventory Alert: " +:+ InventoryItem.variety item) alert_msg
        else ret tt
  end.

Arguments adjust_inventory : simpl never.

(** *** Inventory endpoints *)

Definition allowed_item_statuses : list string := ["in-storage"; "sold"; "waste"].

Definition get_inventory_item (item_id : string) : M InventoryItem.t :=
  let* w := get in
  match find_index (λ item, InventoryItem.id item = item_id) (inventory_items w) with
  | None => raise 404 "Inventory item not found"
  | Some (_, item) => ret item
  end.

(** [item_dict] is appended to [inventory_items] and then handed, by its
    id, to [adjust_inventory]; the value returned is read back from the
    list position the dict was appended at, because the returned
    [InventoryItem] is built from that same (mutated) dict. *)
Definition create_inventory_item (item_data : InventoryItemBody.t) : M InventoryItem.t :=
  if InventoryItemBody.trayCount item_data <? 0 then
    raise 400 "Tray count cannot be negative"
  else if bool_decide (InventoryItemBody.status item_data ∉ allowed_item_statuses) then
    raise 400 "Invalid status"
  else
    let* new_id := uuid4 in
    let* t := now in
    let item_dict :=
      InventoryItem.mk new_id (InventoryItemBody.variety item_data)
        (InventoryItemBody.trayCount item_data) t
        (match InventoryItemBody.weightKg item_data with
         | Some v => v
         | None => None
         end)
        (InventoryItemBody.status item_data) in
    let* w := get in
    let position := length (inventory_items w) in
    modify (set_inventory_items (inventory_items w ++ [item_dict]));;
    adjust_inventory new_id (InventoryItemBody.trayCount item_data)
      "Manual creation" "system";;
    let* w' := get in
    ret (default item_dict (inventory_items w' !! position)).

(** [{**original_item, **update_data}] with
    [update_data = updated_item_data.dict(exclude_unset=True)] *)
Definition merge_update (original_item : InventoryItem.t)
    (update_data : InventoryItemBody.t) : InventoryItem.t :=
  InventoryItem.mk
    (default (InventoryItem.id original_item) (InventoryItemBody.id update_data))
    (InventoryItemBody.variety update_data)
    (InventoryItemBody.trayCount update_data)
    (InventoryItemBody.harvestDate update_data)
    (default (InventoryItem.weightKg original_item)
       (InventoryItemBody.weightKg update_data))
    (InventoryItemBody.status update_data).

Definition update_inventory_item (item_id : string)
    (updated_item_data : InventoryItemBody.t) : M InventoryItem.t :=
  let* w := get in
  match find_index (λ item, InventoryItem.id item = item_id) (inventory_items w) with
  | None => raise 404 "Inventory item not found"
  | Some (index, original_item) =>
      if bool_decide (InventoryItemBody.status updated_item_data ∉ allowed_item_statuses) then
        raise 400 "Invalid status"
      else if bool_decide (InventoryItemBody.trayCount updated_item_data
                           ≠ InventoryItem.trayCount original_item) then
        raise 400 "Tray count must be updated via logs"
      else
        let updated_item_dict := merge_update original_item updated_item_data in
        modify (λ w, set_inventory_items
                       (<[index := updated_item_dict]> (inventory_items w)) w);;
        ret updated_item_dict
  end.

Definition delete_inventory_item (item_id : string) : M unit :=
  let* w := get in
  match find_index (λ item, InventoryItem.id item = item_id) (inventory_items w) with
  | None => raise 404 "Inventory item not found"
  | Some (index, item) =>
      adjust_inventory item_id (- InventoryItem.trayCount item) "Item deleted" "system";;
      modify (λ w, set_inventory_items (delete index (inventory_items w)) w)
  end.

Definition create_inventory_log (item_id : string)
    (log_entry_data : InventoryLog.t) : M InventoryLog.t :=
  if bool_decide (InventoryLog.itemId log_entry_data ≠ item_id) then
    raise 400 "Log entry itemId must match path item_id"
  else
    adjust_inventory item_id (InventoryLog.change log_entry_data)
      (InventoryLog.reason log_entry_data) (InventoryLog.userId log_entry_data);;
    let* w := get in
    match find_index
            (λ log, InventoryLog.itemId log = item_id
                    ∧ InventoryLog.reason log = InventoryLog.reason log_entry_data)
            (reverse (inventory_logs w)) with
    | None => raise 500 "Failed to retrieve created log entry"
    | Some (_, created_log) => ret created_log
    end.

Definition get_inventory_item_logs (item_id : string) : M (list InventoryLog.t) :=
  let* w := get in
  if bool_decide (Exists (λ item, InventoryItem.id item = item_id) (inventory_items w)) then
    ret (filter (λ log, InventoryLog.itemId log = item_id) (inventory_logs w))
  else
    raise 404 "Inventory item not found".

(** *** Order endpoints *)

(** [item_data.price_per_tray or 10.0] *)
Definition price_or_default (p : option Q) : Q :=
  match p with
  | Some q => if Qeq_bool q 0 then 10%Q else q
  | None => 10%Q
  end.

(** The rollback loop of [create_order]: every recorded adjustment is
    credited back, a failing credit is printed and skipped. *)
Fixpoint revert_adjustments (order_id : string)
    (inventory_adjustments : list (string * Z)) : M unit :=
  match inventory_adjustments with
  | [] => ret tt
  | (adj_item_id, adj_qty) :: rest =>
      try_except
        (adjust_inventory adj_item_id adj_qty
           ("Reverted failed order " +:+ order_id) "system")
        (λ _, ret tt);;
      revert_adjustments order_id rest
  end.

(** The body of [for i, item_data in enumerate(order_data.items)], with
    the three accumulators of the Python loop.  The products and the
    running sum of [total_price] are exact here; Python rounds each of them
    to a binary64 float, and the two agree where no rounding takes place:
    for prices in whole units and a total below [2 ^ 53]. *)
Fixpoint create_order_items (order_id : string) (i : nat)
    (items : list OrderItemBody.t) (total_price : Q)
    (processed_items : list OrderItem.t)
    (inventory_adjustments : list (string * Z)) : M (Q * list OrderItem.t) :=
  match items with
  | [] => ret (total_price, processed_items)
  | item_data :: rest =>
      let inventoryItemId := OrderItemBody.inventoryItemId item_data in
      let quantity := OrderItemBody.quantity item_data in
      let* item_uuid := uuid4 in
      let* w := get in
      match find_index (λ inv, InventoryItem.id inv = inventoryItemId)
                       (inventory_items w) with
      | None =>
          raise 404 ("Inventory item " +:+ inventoryItemId +:+ " for order item "
                     +:+ pretty (S i) +:+ " not found")
      | Some (inv_index, inventory_item) =>
          if bool_decide (InventoryItem.variety inventory_item
                          ≠ OrderItemBody.variety item_data) then
            raise 400 ("Variety mismatch for inventory item " +:+ inventoryItemId)
          else
            try_except
              (adjust_inventory inventoryItemId (- quantity)
                 ("Order " +:+ order_id) "system")
              (λ e,
                 revert_adjustments order_id inventory_adjustments;;
                 raise 400 ("Insufficient stock for " +:+ OrderItemBody.variety item_data
                            +:+ " (Item ID: " +:+ inventoryItemId +:+ "): "
                            +:+ detail e));;
            let price := price_or_default (OrderItemBody.price_per_tray item_data) in
            let item_price := (inject_Z quantity * price)%Q in
            let item_dict :=
              OrderItem.mk item_uuid order_id inventoryItemId
                (OrderItemBody.variety item_data) quantity (Some price) in
            create_order_items order_id (S i) rest (total_price + item_price)%Q
              (processed_items ++ [item_dict])
              (inventory_adjustments ++ [(inventoryItemId, quantity)])
      end
  end.

Definition create_order (order_data : OrderBody.t) : M Order.t :=
  let* order_id := uuid4 in
  let* order_date := now in
  let* r := create_order_items order_id 0 (OrderBody.items order_data) 0%Q [] [] in
  let order_dict :=
    Order.mk order_id (OrderBody.customerName order_data)
      (OrderBody.customerContact order_data) order_date
      (OrderBody.pickupDate order_data) "pending" r.2
      (Some (round_to 2 r.1)) in
  modify (λ w, set_orders (orders w ++ [order_dict]) w);;
  ret order_dict.

Definition valid_statuses : list string :=
  ["pending"; "confirmed"; "completed"; "cancelled"].

Definition with_status (s : string) (o : Order.t) : Order.t :=
  Order.mk (Order.id o) (Order.customerName o) (Order.customerContact o)
    (Order.orderDate o) (Order.pickupDate o) s (Order.items o)
    (Order.total_price o).

(** The cancellation loop of [update_order_status]: one credit per order
    line, a failing credit is printed and skipped. *)
Fixpoint restore_order_items (order_id : string)
    (order_items_list : list OrderItem.t) : M unit :=
  match order_items_list with
  | [] => ret tt
  | item_dict :: rest =>
      try_except
        (adjust_inventory (OrderItem.inventoryItemId item_dict)
           (OrderItem.quantity item_dict)
           ("Order " +:+ order_id +:+ " cancelled") "system")
        (λ _, ret tt);;
      restore_order_items order_id rest
  end.

Definition update_order_status (order_id : string) (status_val : string) : M Order.t :=
  if bool_decide (status_val ∉ valid_statuses) then
    raise 400 ("Invalid status. Must be one of: "
               +:+ "['pending', 'confirmed', 'completed', 'cancelled']")
  else
    let* w := get in
    match find_index (λ o, Order.id o = order_id) (orders w) with
    | None => raise 404 "Order not found"
    | Some (index, order) =>
        let original_status := Order.status order in
        (if bool_decide (status_val = "cancelled" ∧ original_status ≠ "cancelled") then
           restore_order_items order_id (Order.items order)
         else ret tt);;
        modify (λ w, set_orders (alter (with_status status_val) index (orders w)) w);;
        let* w' := get in
        ret (default (with_status status_val order) (orders w' !! index))
    end.

Definition cancel_order (order_id : string) : M unit :=
  try_except
    (update_order_status order_id "cancelled";; ret tt)
    (λ e, if bool_decide (status_code e = 404) then raise 404 "Order not found"
          else λ w, (Raised e, w)).

(** *** Forecast endpoints *)

(** [sales_by_date[order_day] += trays_in_order] on a [defaultdict(int)] *)
Definition add_sale (sales_by_date : gmap Z Z) (order_dict : Order.t)
    (start_hist_date end_hist_date : Z) : gmap Z Z :=
  if bool_decide (Order.status order_dict = "completed") then
    let order_date := Order.orderDate order_dict in
    if bool_decide (start_hist_date ≤ order_date ∧ order_date ≤ end_hist_date) then
      let order_day := date_of order_date in
      let trays_in_order := sumZ (OrderItem.quantity <$> Order.items order_dict) in
      <[order_day := default 0 (sales_by_date !! order_day) + trays_in_order]> sales_by_date
    else sales_by_date
  else sales_by_date.

(** The order of [sorted(sales_by_date.items())]: the days are the keys of
    a dict, hence distinct, so the pairs are ordered by day alone. *)
Definition by_day (a b : Z * Z) : Prop := a.1 ≤ b.1.

#[local] Instance by_day_dec (a b : Z * Z) : Decision (by_day a b) :=
  Z_le_dec a.1 b.1.

(** The loop of [get_historical_sales] over [orders] and the records
    built from the dict it fills. *)
Definition sales_between (start_hist_date end_hist_date : Z) (w : World)
    : list SalesRecord.t :=
  let sales_by_date :=
    foldl (λ acc o, add_sale acc o start_hist_date end_hist_date) ∅ (orders w) in
  (λ dc : Z * Z, SalesRecord.mk (SalesRecord_id settings) dc.1 dc.2 None)
    <$> merge_sort by_day (map_to_list sales_by_date).

Definition get_historical_sales (days_back : Z) (w : World)
    : ending (list SalesRecord.t) :=
  let end_hist_date := clock w in
  match datetime_minus_days end_hist_date days_back with
  | None => Stopped OverflowError
  | Some start_hist_date =>
      Ended (Returned (sales_between start_hist_date end_hist_date w))
  end.

(** The fallback series: one point per day, [weeks * 7] of them from
    [start_date], all carrying [round(avg, 1)].  The dates
    [start_date + timedelta(days=i)] lie between [start_date] and the
    [end_date] that was computed before, so that these sums stay in range. *)
Definition fallback_predictions (start_date weeks : Z) (ys : list Z)
    : list ForecastPoint.t :=
  let avg := mean_or_zero ys in
  (λ i, ForecastPoint.mk (start_date + i) (round_to 1 avg)) <$> seqZ 0 (weeks * 7).

(** The body of [get_demand_forecast] from the frame on: the [try] with
    its two fallbacks. *)
Definition forecast_predictions (start_date end_date weeks : Z)
    (df : list (Z * Z)) : list ForecastPoint.t :=
  let fallback := fallback_predictions start_date weeks (snd <$> df) in
  (* [None]: an exception left the body of the [try] *)
  let attempted : option (list ForecastPoint.t) :=
    if bool_decide (2 ≤ length df)%nat then
      match prophet df (weeks * 7) with
      | None => None
      | Some forecast_df =>
          Some ((λ row : Z * Q, ForecastPoint.mk row.1 (round_to 1 row.2))
                  <$> filter (λ row : Z * Q, start_date ≤ row.1 ∧ row.1 ≤ end_date)
                             forecast_df)
      end
    else Some [] in
  match attempted with
  | None => fallback
  | Some [] => fallback
  | Some predictions => predictions
  end.

(** [timedelta(weeks=weeks)] is [timedelta(days=7 * weeks)].  The end date
    is computed first, before the cache is looked at, and the history is
    read outside the [try]: an [OverflowError] of either leaves the
    endpoint. *)
Definition get_demand_forecast (weeks : Z) (w : World) : ending Forecast.t * World :=
  let start_date := date_of (clock w) in
  match date_plus_days start_date (7 * weeks) with
  | None => (Stopped OverflowError, w)
  | Some end_date =>
      let cache_key := (start_date, weeks) in
      match forecasts_cache w !! cache_key with
      | Some cached => (Ended (Returned cached), w)
      | None =>
          match get_historical_sales 60 w with
          | Stopped e => (Stopped e, w)
          | Ended (Raised e) => (Ended (Raised e), w)
          | Ended (Returned sales_records) =>
              let df := (λ rec, (SalesRecord.date rec, SalesRecord.totalTraysSold rec))
                          <$> sales_records in
              let predictions := forecast_predictions start_date end_date weeks df in
              let forecast_result :=
                Forecast.mk (Forecast_id settings) start_date end_date predictions
                  (Forecast_createdAt settings) in
              (Ended (Returned forecast_result),
               set_forecasts_cache (<[cache_key := forecast_result]> (forecasts_cache w)) w)
          end
      end
  end.

(** [get_order_details]: a stored order is a non-empty dict, so
    [if not order_dict] holds only when no order was found. *)
Definition get_order_details (order_id : string) : M Order.t :=
  let* w := get in
  match find_index (λ o, Order.id o = order_id) (orders w) with
  | None => raise 404 "Order not found"
  | Some (_, order_dict) => ret order_dict
  end.

(** *** Notification endpoints *)

Definition get_notifications (unread : option bool) : M (list Notification.t) :=
  let* w := get in
  if default false unread then
    ret (filter (λ n, Notification.is_read n = false) (notifications w))
  else ret (notifications w).

(** The e-mail of an alert is handed to [background_tasks]: the call of
    [send_email_notification] is made once the response is out, and is
    recorded here at the point where it is enqueued. *)
Definition create_notification (notification_data : NotificationCreate.t)
    : M Notification.t :=
  let* new_id := uuid4 in
  let* t := now in
  let new_notif :=
    Notification.mk new_id (NotificationCreate.message notification_data)
      (NotificationCreate.type notification_data) t false in
  modify (λ w, set_notifications (notifications w ++ [new_notif]) w);;
  (if bool_decide (NotificationCreate.type notification_data = "alert") then
     send_email_notification
       ("Alert: " +:+ NotificationCreate.message notification_data)
       (NotificationCreate.message notification_data)
   else ret tt);;
  ret new_notif.

Definition with_is_read (b : bool) (n : Notification.t) : Notification.t :=
  Notification.mk (Notification.id n) (Notification.message n)
    (Notification.type n) (Notification.timestamp n) b.

Definition mark_notification_read (notification_id : string) : M Notification.t :=
  let* w := get in
  match find_index (λ notif, Notification.id notif = notification_id)
                   (notifications w) with
  | Some (index, notif) =>
      modify (λ w, set_notifications
                     (alter (with_is_read true) index (notifications w)) w);;
      ret (with_is_read true notif)
  | None => raise 404 "Notification not found"
  end.

(** *** Planting endpoints

    These two endpoints touch the [plantings] list only; the list and the
    time read by [datetime.now()] are passed explicitly.  The plant date of
    a request is taken without a UTC offset, like [datetime.now()] itself:
    Python refuses to compare a datetime that carries an offset with one
    that does not, so that [create_planting] stops with a [TypeError],
    before anything is appended, on a plant date with an offset.  The
    stored plantings therefore never carry one.  The two sums of
    [create_planting] are made before anything is appended as well. *)

Definition varieties : list CropVariety.t :=
  [CropVariety.mk 1 "Sunflower" 10 200%Q;
   CropVariety.mk 2 "Pea Shoots" 12 175%Q;
   CropVariety.mk 3 "Radish" 8 150%Q;
   CropVariety.mk 4 "Broccoli" 14 180%Q;
   CropVariety.mk 5 "Arugula" 7 125%Q;
   CropVariety.mk 6 "Kale" 10 160%Q;
   CropVariety.mk 7 "Wheatgrass" 12 210%Q].

Definition with_planting_status (s : string) (p : TrayPlanting.t) : TrayPlanting.t :=
  TrayPlanting.mk (TrayPlanting.id p) (TrayPlanting.variety_id p)
    (TrayPlanting.plant_date p) (TrayPlanting.expected_harvest_date p) s
    (TrayPlanting.tray_count p).

(** The body of the loop of [get_plantings]. *)
Definition mark_ready (now_ : Z) (p : TrayPlanting.t) : TrayPlanting.t :=
  if bool_decide (TrayPlanting.status p = "growing"
                  ∧ TrayPlanting.expected_harvest_date p ≤ now_) then
    with_planting_status "ready" p
  else p.

(** [get_plantings]: the list returned is the updated module list. *)
Definition get_plantings (now_ : Z) (plantings : list TrayPlanting.t)
    : list TrayPlanting.t :=
  mark_ready now_ <$> plantings.

(** [max(l, default=d)] *)
Definition max_default (d : Z) (l : list Z) : Z :=
  match l with
  | [] => d
  | x :: l' => foldl Z.max x l'
  end.

Definition create_planting (now_ : Z) (planting_data : PlantingCreate.t)
    (plantings : list TrayPlanting.t)
    : ending TrayPlanting.t * list TrayPlanting.t :=
  match find_index (λ v, CropVariety.id v = PlantingCreate.variety_id planting_data)
                   varieties with
  | None => (Ended (Raised (mkHTTPException 404 "Variety not found")), plantings)
  | Some (_, variety) =>
      let plant_date := PlantingCreate.plant_date planting_data in
      match datetime_plus_days plant_date (CropVariety.grow_cycle_days variety) with
      | None => (Stopped OverflowError, plantings)
      | Some expected_date =>
          match datetime_minus_days now_ 1 with
          | None => (Stopped OverflowError, plantings)
          | Some day_ago =>
              let status := "planted" in
              let status := if bool_decide (plant_date < day_ago) then "growing"
                            else status in
              let status := if bool_decide (expected_date ≤ now_) then "ready"
                            else status in
              let new_id := max_default 0 (TrayPlanting.id <$> plantings) + 1 in
              let planting_dict :=
                TrayPlanting.mk new_id (PlantingCreate.variety_id planting_data)
                  plant_date expected_date status
                  (PlantingCreate.tray_count planting_data) in
              (Ended (Returned planting_dict), plantings ++ [planting_dict])
          end
      end
  end.

(** ** What one adjustment does *)

(** The alert condition of [adjust_inventory]. *)
Definition low_stock (change new_count : Z) : bool :=
  (change <? 0) && (new_count <? low_stock_threshold settings).

Definition alert_msg (item : InventoryItem.t) (new_count : Z) : string :=
  "Low inventory: " +:+ InventoryItem.variety item
  +:+ " down to " +:+ pretty new_count +:+ " trays".

(** The store after a successful adjustment of the item found at [index]. *)
Definition adjusted (w : World) (index : nat) (item : InventoryItem.t)
    (item_id : string) (change : Z) (reason user_id : string) : World :=
  let new_count := InventoryItem.trayCount item + change in
  let alert := low_stock change new_count in
  mkWorld
    (<[index := with_trayCount new_count item]> (inventory_items w))
    (inventory_logs w
       ++ [InventoryLog.mk (InventoryLog_id settings) item_id change reason
             (clock w) user_id])
    (orders w)
    (if alert then
       notifications w
         ++ [Notification.mk (uuid_of (uuid_draws w)) (alert_msg item new_count)
               "alert" (clock w) false]
     else notifications w)
    (forecasts_cache w)
    (if alert then
       email_calls w
         ++ [("Inventory Alert: " +:+ InventoryItem.variety item,
              alert_msg item new_count)]
     else email_calls w)
    (clock w)
    (if alert then S (uuid_draws w) else uuid_draws w).

(** One call of the ledger's adjustment operation, and a sequence of such
    calls: each call is made whatever the outcome of the calls before it. *)
Record AdjustCall := mkAdjustCall {
  call_item_id : string;
  call_change : Z;
  call_reason : string;
  call_user_id : string
}.

Definition adjust_call (c : AdjustCall) : M unit :=
  adjust_inventory (call_item_id c) (call_change c) (call_reason c) (call_user_id c).

Definition adjust_sequence (calls : list AdjustCall) (w : World) : World :=
  foldl (λ w c, after (adjust_call c) w) w calls.

Definition non_negative (w : World) : Prop :=
  Forall (λ item, 0 ≤ InventoryItem.trayCount item) (inventory_items w).

(** The ledger proper: the tray counts and the adjustment log. *)
Definition ledger (w : World) : list InventoryItem.t * list InventoryLog.t :=
  (inventory_items w, inventory_logs w).

(** The daily demand series that [get_demand_forecast] builds on a miss. *)
Definition demand_frame (w : World) : list (Z * Z) :=
  (λ rec, (SalesRecord.date rec, SalesRecord.totalTraysSold rec))
    <$> sales_between (clock w - days 60) (clock w) w.

(** The rows of the oracle's frame that fall in the requested period. *)
Definition in_window (start_date end_date : Z) (forecast_df : list (Z * Q))
    : list (Z * Q) :=
  filter (λ row : Z * Q, start_date ≤ row.1 ∧ row.1 ≤ end_date) forecast_df.

(** The conservation law: every stored tray count is the sum of the deltas
    logged for that batch. *)
Definition logged_total (item_id : string) (logs : list InventoryLog.t) : Z :=
  sumZ (InventoryLog.change
          <$> filter (λ log, InventoryLog.itemId log = item_id) logs).

Definition conserved (w : World) : Prop :=
  Forall (λ item, InventoryItem.trayCount item
                  = logged_total (InventoryItem.id item) (inventory_logs w))
         (inventory_items w).

Definition unique_ids (w : World) : Prop :=
  NoDup (InventoryItem.id <$> inventory_items w).

Definition ledger_sound (w : World) : Prop := unique_ids w ∧ conserved w.

(** A computation that keeps a sound ledger sound, however it ends. *)
Definition keeps {A} (m : M A) : Prop :=
  ∀ w, ledger_sound w → ledger_sound (after m w).

(** The ledger operations other than batch creation. *)
Inductive Operation :=
| Adjust (c : AdjustCall)
| PlaceOrder (order_data : OrderBody.t)
| UpdateStatus (order_id status_val : string)
| CancelOrder (order_id : string)
| RemoveBatch (item_id : string).

Definition perform (op : Operation) (w : World) : World :=
  match op with
  | Adjust c => after (adjust_call c) w
  | PlaceOrder order_data => after (create_order order_data) w
  | UpdateStatus order_id status_val => after (update_order_status order_id status_val) w
  | CancelOrder order_id => after (cancel_order order_id) w
  | RemoveBatch item_id => after (delete_inventory_item item_id) w
  end.

Definition perform_all (ops : list Operation) (w : World) : World :=
  foldl (λ w op, perform op w) w ops.

(** The effect of an applied adjustment on the list of batches: the first
    batch with the given id has its count moved by [delta]. *)
Definition bump (item_id : string) (delta : Z) (items : list InventoryItem.t)
    : list InventoryItem.t :=
  match find_index (λ item, InventoryItem.id item = item_id) items with
  | Some (index, item) =>
      <[index := with_trayCount (InventoryItem.trayCount item + delta) item]> items
  | None => items
  end.

(** The batches after every entry of [inventory_adjustments] is credited. *)
Definition credit_all (inventory_adjustments : list (string * Z))
    (items : list InventoryItem.t) : list InventoryItem.t :=
  foldl (λ l adj, bump adj.1 adj.2 l) items inventory_adjustments.

(** The log entries of an order line's debit and of its reversal. *)
Definition debit_entry (order_id : string) (t : Z) (adj : string * Z)
    : InventoryLog.t :=
  InventoryLog.mk (InventoryLog_id settings) adj.1 (- adj.2)
    ("Order " +:+ order_id) t "system".


Definition line_adjustment (line : OrderItemBody.t) : string * Z :=
  (OrderItemBody.inventoryItemId line, OrderItemBody.quantity line).

(** What [create_order] knows of the entries of [inventory_adjustments]:
    the quantity is not negative and the batch, debited with success, is
    in the store with a count that is not negative. *)
Definition debited (inventory_adjustments : list (string * Z))
    (items : list InventoryItem.t) : Prop :=
  Forall (λ adj : string * Z,
            0 ≤ adj.2
            ∧ ∃ index item,
                find_index (λ item, InventoryItem.id item = adj.1) items
                  = Some (index, item)
                ∧ 0 ≤ InventoryItem.trayCount item)
         inventory_adjustments.

(** The batches after every entry of a list of adjustments is debited. *)
Definition debit_all (inventory_adjustments : list (string * Z))
    (items : list InventoryItem.t) : list InventoryItem.t :=
  foldl (λ l adj, bump adj.1 (- adj.2) l) items inventory_adjustments.


(** A stored order line without its own id, and what [create_order]
    stores for a requested line. *)
Definition stored_line (item : OrderItem.t)
    : string * string * string * Z * option Q :=
  (OrderItem.orderId item, OrderItem.inventoryItemId item, OrderItem.variety item,
   OrderItem.quantity item, OrderItem.price_per_tray item).

Definition requested_line (order_id : string) (line : OrderItemBody.t)
    : string * string * string * Z * option Q :=
  (order_id, OrderItemBody.inventoryItemId line, OrderItemBody.variety line,
   OrderItemBody.quantity line,
   Some (price_or_default (OrderItemBody.price_per_tray line))).

(** The running total of [create_order], line after line. *)
Definition lines_total (total_price : Q) (lines : list OrderItemBody.t) : Q :=
  foldl (λ acc line,
           acc + inject_Z (OrderItemBody.quantity line)
                 * price_or_default (OrderItemBody.price_per_tray line))%Q
        total_price lines.

Definition order_item_adjustment (item : OrderItem.t) : string * Z :=
  (OrderItem.inventoryItemId item, OrderItem.quantity item).

(** The log entry of the credit that a cancellation makes for a line. *)
Definition cancel_entry (order_id : string) (t : Z) (adj : string * Z)
    : InventoryLog.t :=
  InventoryLog.mk (InventoryLog_id settings) adj.1 adj.2
    ("Order " +:+ order_id +:+ " cancelled") t "system".

(** The inventory reversal of an order, on the ledger alone.  The lines
    are taken in order: a line whose batch is in the store, with a quantity
    that keeps the count of the batch non-negative, is credited to the
    batch and logged; any other line is passed over. *)
Definition reverse_line (order_id : string) (t : Z)
    (l : list InventoryItem.t * list InventoryLog.t) (adj : string * Z)
    : list InventoryItem.t * list InventoryLog.t :=
  match find_index (λ item, InventoryItem.id item = adj.1) l.1 with
  | Some (_, item) =>
      if bool_decide (0 ≤ InventoryItem.trayCount item + adj.2) then
        (bump adj.1 adj.2 l.1, l.2 ++ [cancel_entry order_id t adj])
      else l
  | None => l
  end.

Definition reversal (order_id : string) (t : Z) (adjs : list (string * Z))
    (l : list InventoryItem.t * list InventoryLog.t)
    : list InventoryItem.t * list InventoryLog.t :=
  foldl (reverse_line order_id t) l adjs.

(** The trays that a list of adjustments holds for one batch. *)
Definition credited (item_id : string) (adjs : list (string * Z)) : Z :=
  sumZ (snd <$> filter (λ adj : string * Z, adj.1 = item_id) adjs).

(** A line priced in whole units: Python's float products and sums of
    such prices are exact as long as they stay below [2 ^ 53]. *)
Definition whole_price (line : OrderItemBody.t) : Prop :=
  match OrderItemBody.price_per_tray line with
  | Some q => Qden q = 1%positive ∧ 0 ≤ Qnum q
  | None => True
  end.

(** The total of lines priced in whole units. *)
Definition whole_total (lines : list OrderItemBody.t) : Z :=
  sumZ ((λ line, OrderItemBody.quantity line
                 * Qnum (price_or_default (OrderItemBody.price_per_tray line)))
          <$> lines).

(** The notifications that [get_notifications] lists as unread. *)
Definition unread_of (l : list Notification.t) : list Notification.t :=
  filter (λ n, Notification.is_read n = false) l.

(** The orders that [get_historical_sales] counts, and what each adds to
    the total of its day. *)
Definition counted_sale (days_back : Z) (w : World) (o : Order.t) : Prop :=
  Order.status o = "completed"
  ∧ clock w - days days_back ≤ Order.orderDate o ∧ Order.orderDate o ≤ clock w.

#[local] Instance counted_sale_dec days_back w o :
  Decision (counted_sale days_back w o).
Proof. unfold counted_sale. apply _. Defined.

Definition trays_in_order (o : Order.t) : Z :=
  sumZ (OrderItem.quantity <$> Order.items o).

(** The sum of the values of a day-to-total dict. *)
Definition map_total (m : gmap Z Z) : Z := sumZ (map_to_list m).*2.

(** ** Proofs *)

Lemma world_eta (w : World) :
  mkWorld (inventory_items w) (inventory_logs w) (orders w) (notifications w)
    (forecasts_cache w) (email_calls w) (clock w) (uuid_draws w) = w.
Proof. by destruct w. Qed.

Lemma adjust_inventory_not_found w item_id change reason user_id :
  find_index (λ item, InventoryItem.id item = item_id) (inventory_items w) = None →
  adjust_inventory item_id change reason user_id w
  = (Raised (mkHTTPException 404
       ("Inventory item " +:+ item_id +:+ " not found for adjustment")), w).
Proof.
  intros Hfind. unfold adjust_inventory, bind, get.
  simpl in *. by rewrite Hfind.
Qed.

Lemma adjust_inventory_negative w item_id change reason user_id index item :
  find_index (λ item, InventoryItem.id item = item_id) (inventory_items w)
    = Some (index, item) →
  InventoryItem.trayCount item + change < 0 →
  adjust_inventory item_id change reason user_id w
  = (Raised (mkHTTPException 400
       ("Adjustment for item " +:+ item_id
        +:+ " results in negative inventory ("
        +:+ pretty (InventoryItem.trayCount item + change)
        +:+ ") for reason: " +:+ reason)), w).
Proof.
  intros Hfind Hneg. unfold adjust_inventory, bind, get.
  simpl in *. rewrite Hfind.
  by destruct (Z.ltb_spec (InventoryItem.trayCount item + change) 0); [|lia].
Qed.

Lemma adjust_inventory_ok w item_id change reason user_id index item :
  find_index (λ item, InventoryItem.id item = item_id) (inventory_items w)
    = Some (index, item) →
  0 ≤ InventoryItem.trayCount item + change →
  adjust_inventory item_id change reason user_id w
  = (Returned tt, adjusted w index item item_id change reason user_id).
Proof.
  intros Hfind Hpos. unfold adjust_inventory, bind, get.
  simpl in *. rewrite Hfind.
  destruct (Z.ltb_spec (InventoryItem.trayCount item + change) 0); [lia|].
  unfold adjusted, low_stock, alert_msg. simpl.
  by destruct (_ && _).
Qed.

Lemma adjust_inventory_cases w item_id change reason user_id :
  (find_index (λ item, InventoryItem.id item = item_id) (inventory_items w) = None
   ∧ ∃ msg, adjust_inventory item_id change reason user_id w
            = (Raised (mkHTTPException 404 msg), w))
  ∨ (∃ index item,
       find_index (λ item, InventoryItem.id item = item_id) (inventory_items w)
         = Some (index, item)
       ∧ ((InventoryItem.trayCount item + change < 0
           ∧ ∃ msg, adjust_inventory item_id change reason user_id w
                    = (Raised (mkHTTPException 400 msg), w))
          ∨ (0 ≤ InventoryItem.trayCount item + change
             ∧ adjust_inventory item_id change reason user_id w
               = (Returned tt, adjusted w index item item_id change reason user_id)))).
Proof.
  destruct (find_index (λ item, InventoryItem.id item = item_id) (inventory_items w))
    as [[index item]|] eqn:Hfind.
  - right. exists index, item. split; [done|].
    destruct (Z_lt_le_dec (InventoryItem.trayCount item + change) 0) as [Hneg|Hpos].
    + left. split; [done|]. eexists. by eapply adjust_inventory_negative.
    + right. split; [done|]. by apply adjust_inventory_ok.
  - left. split; [done|]. eexists. by apply adjust_inventory_not_found.
Qed.

Lemma adjust_inventory_raised_unchanged w item_id change reason user_id e :
  result (adjust_inventory item_id change reason user_id) w = Raised e →
  after (adjust_inventory item_id change reason user_id) w = w.
Proof.
  unfold result, after.
  destruct (adjust_inventory_cases w item_id change reason user_id)
    as [[_ [msg ->]]|(index & item & _ & [[_ [msg ->]]|[_ ->]])]; done.
Qed.

Lemma adjust_inventory_non_negative w item_id change reason user_id :
  non_negative w →
  non_negative (after (adjust_inventory item_id change reason user_id) w).
Proof.
  intros Hnn. unfold after.
  destruct (adjust_inventory_cases w item_id change reason user_id)
    as [[_ [msg ->]]|(index & item & _ & [[_ [msg ->]]|[Hpos ->]])]; try done.
  unfold non_negative. simpl. by apply Forall_insert.
Qed.

(** C3.  For a batch that exists, [adjust_inventory] raises exactly when the
    current count plus the delta is negative; the exception then has status
    400 (InvalidAdjustment) and the whole store, tray count and log
    included, is left as it was.  Consequently a store in which no tray
    count is negative stays so under every sequence of adjust calls. *)
Theorem adjust_inventory_InvalidAdjustment :
  (∀ w item_id change reason user_id index item,
     find_index (λ item, InventoryItem.id item = item_id) (inventory_items w)
       = Some (index, item) →
     ((∃ e, result (adjust_inventory item_id change reason user_id) w = Raised e)
      ↔ InventoryItem.trayCount item + change < 0)
     ∧ (InventoryItem.trayCount item + change < 0 →
        ∃ msg, adjust_inventory item_id change reason user_id w
               = (Raised (mkHTTPException 400 msg), w)))
  ∧ (∀ calls w, non_negative w → non_negative (adjust_sequence calls w)).
Proof.
  split.
  - intros w item_id change reason user_id index item Hfind. split.
    + split.
      * intros [e He]. unfold result in He.
        destruct (Z_lt_le_dec (InventoryItem.trayCount item + change) 0); [done|].
        by rewrite (adjust_inventory_ok _ _ _ _ _ _ _ Hfind) in He.
      * intros Hneg. eexists. unfold result.
        by rewrite (adjust_inventory_negative _ _ _ _ _ _ _ Hfind Hneg).
    + intros Hneg. eexists. by eapply adjust_inventory_negative.
  - induction calls as [|c calls IH]; intros w Hnn; [done|].
    simpl. apply IH. by apply adjust_inventory_non_negative.
Qed.

(** C7.  When an adjustment is applied, the in-app alert list and the
    e-mail sink each receive exactly one new entry if the delta is negative
    and the new count is strictly below the threshold, and nothing
    otherwise; in particular nothing is emitted when the new count lands
    on the threshold or when the delta is not negative.  A rejected
    adjustment emits nothing. *)
Theorem adjust_inventory_low_stock_alert :
  (∀ w item_id change reason user_id index item,
     let new_count := InventoryItem.trayCount item + change in
     let w' := after (adjust_inventory item_id change reason user_id) w in
     find_index (λ item, InventoryItem.id item = item_id) (inventory_items w)
       = Some (index, item) →
     0 ≤ new_count →
     (change < 0 ∧ new_count < low_stock_threshold settings →
      notifications w'
        = notifications w
            ++ [Notification.mk (uuid_of (uuid_draws w)) (alert_msg item new_count)
                  "alert" (clock w) false]
      ∧ email_calls w'
        = email_calls w
            ++ [("Inventory Alert: " +:+ InventoryItem.variety item,
                 alert_msg item new_count)])
     ∧ (¬ (change < 0 ∧ new_count < low_stock_threshold settings) →
        notifications w' = notifications w ∧ email_calls w' = email_calls w)
     ∧ (new_count = low_stock_threshold settings →
        notifications w' = notifications w ∧ email_calls w' = email_calls w)
     ∧ (0 ≤ change →
        notifications w' = notifications w ∧ email_calls w' = email_calls w))
  ∧ (∀ w item_id change reason user_id e,
       let w' := after (adjust_inventory item_id change reason user_id) w in
       result (adjust_inventory item_id change reason user_id) w = Raised e →
       notifications w' = notifications w ∧ email_calls w' = email_calls w).
Proof.
  split.
  - intros w item_id change reason user_id index item new_count w' Hfind Hpos.
    subst w'. unfold after.
    rewrite (adjust_inventory_ok _ _ _ _ _ _ _ Hfind Hpos).
    unfold adjusted, low_stock. simpl. fold new_count.
    destruct (Z.ltb_spec change 0), (Z.ltb_spec new_count (low_stock_threshold settings));
      simpl; repeat split; intros; try done; lia.
  - intros w item_id change reason user_id e w' He. subst w'.
    by rewrite (adjust_inventory_raised_unchanged _ _ _ _ _ _ He).
Qed.

(** *** Lists updated in place *)

Lemma alter_lookup_insert {A} (f : A → A) (l : list A) (i : nat) (x : A) :
  l !! i = Some x → alter f i l = <[i := f x]> l.
Proof.
  revert i. induction l as [|y l IH]; intros [|i] Hi; simplify_eq/=; [done|].
  f_equal. by apply IH.
Qed.

Lemma delete_insert_same {A} (l : list A) (i : nat) (x : A) :
  delete i (<[i := x]> l) = delete i l.
Proof.
  revert i. induction l as [|y l IH]; intros [|i]; simpl; [done..|].
  f_equal. apply IH.
Qed.

Lemma NoDup_lookup_delete {A} (l : list A) (i : nat) (x : A) :
  NoDup l → l !! i = Some x → x ∉ delete i l.
Proof.
  intros Hnd Hi. rewrite delete_take_drop.
  rewrite <-(take_drop_middle l i x Hi) in Hnd.
  apply NoDup_app in Hnd as (_ & Hdisj & Hnd).
  apply NoDup_cons in Hnd as [Hx _].
  intros [Hin|Hin]%elem_of_app; [|done].
  apply (Hdisj x Hin). left.
Qed.

Lemma find_index_lookup {A} (P : A → Prop) `{∀ x, Decision (P x)}
    (l : list A) (i : nat) (x : A) :
  find_index P l = Some (i, x) → l !! i = Some x ∧ P x.
Proof. simpl. intros Hfind. apply list_find_Some in Hfind as (? & ? & _). done. Qed.

Lemma find_index_elem_of w item_id :
  item_id ∈ InventoryItem.id <$> inventory_items w →
  ∃ index item,
    find_index (λ item, InventoryItem.id item = item_id) (inventory_items w)
      = Some (index, item).
Proof.
  intros (item & Hid & Hin)%list_elem_of_fmap. simpl.
  destruct (list_find_elem_of (λ item, InventoryItem.id item = item_id)
              (inventory_items w) item Hin) as [[index item'] Hfind]; [done|].
  by exists index, item'.
Qed.

Lemma find_index_not_elem_of w item_id :
  item_id ∉ InventoryItem.id <$> inventory_items w →
  find_index (λ item, InventoryItem.id item = item_id) (inventory_items w) = None.
Proof.
  intros Hnot. simpl. apply list_find_None, Forall_forall.
  intros item Hin Hid. apply Hnot, list_elem_of_fmap. by exists item.
Qed.

(** *** The non-ledger update *)

Lemma update_inventory_item_rejected w item_id updated_item_data index original_item :
  find_index (λ item, InventoryItem.id item = item_id) (inventory_items w)
    = Some (index, original_item) →
  InventoryItemBody.trayCount updated_item_data
    ≠ InventoryItem.trayCount original_item →
  ∃ msg, update_inventory_item item_id updated_item_data w
         = (Raised (mkHTTPException 400 msg), w).
Proof.
  intros Hfind Hne. unfold update_inventory_item, bind, get, raise.
  simpl in *. rewrite Hfind.
  case_bool_decide; [by eexists|].
  rewrite bool_decide_true by done. by eexists.
Qed.

Lemma update_inventory_item_cases w item_id updated_item_data :
  (∃ e, update_inventory_item item_id updated_item_data w = (Raised e, w))
  ∨ (∃ index original_item,
       find_index (λ item, InventoryItem.id item = item_id) (inventory_items w)
         = Some (index, original_item)
       ∧ InventoryItemBody.trayCount updated_item_data
         = InventoryItem.trayCount original_item
       ∧ update_inventory_item item_id updated_item_data w
         = (Returned (merge_update original_item updated_item_data),
            set_inventory_items
              (<[index := merge_update original_item updated_item_data]>
                 (inventory_items w)) w)).
Proof.
  unfold update_inventory_item, bind, get, raise, modify, ret. simpl.
  destruct (list_find _ _) as [[index original_item]|] eqn:Hfind; [|by left; eexists].
  case_bool_decide; [by left; eexists|].
  case_bool_decide as Hcount; [by left; eexists|].
  right. exists index, original_item. split; [done|]. split; [|done].
  by destruct (decide (InventoryItemBody.trayCount updated_item_data
                       = InventoryItem.trayCount original_item)).
Qed.

(** C9.  [update_inventory_item] never changes a tray count: the list of
    tray counts of the store is the same before and after every call; a
    request whose [trayCount] differs from the stored one is refused with
    status 400 and leaves the whole store as it was; and a successful call
    returns, and stores at the batch's position, an item whose tray count
    is the one stored before, every other part of the store untouched. *)
Theorem update_inventory_item_keeps_trayCount :
  ∀ w item_id updated_item_data,
    let w' := after (update_inventory_item item_id updated_item_data) w in
    InventoryItem.trayCount <$> inventory_items w'
      = InventoryItem.trayCount <$> inventory_items w
    ∧ (∀ index original_item,
         find_index (λ item, InventoryItem.id item = item_id) (inventory_items w)
           = Some (index, original_item) →
         (InventoryItemBody.trayCount updated_item_data
            ≠ InventoryItem.trayCount original_item →
          ∃ msg, update_inventory_item item_id updated_item_data w
                 = (Raised (mkHTTPException 400 msg), w))
         ∧ (∀ r, result (update_inventory_item item_id updated_item_data) w
                 = Returned r →
                 InventoryItem.trayCount r = InventoryItem.trayCount original_item
                 ∧ w' = set_inventory_items (<[index := r]> (inventory_items w)) w)).
Proof.
  intros w item_id updated_item_data w'. subst w'. unfold after, result.
  destruct (update_inventory_item_cases w item_id updated_item_data)
    as [[e Hrun]|(index & original_item & Hfind & Hcount & Hrun)].
  - split; [by rewrite Hrun|].
    intros index original_item Hfind. split.
    + by eapply update_inventory_item_rejected.
    + intros r. by rewrite Hrun.
  - split.
    + rewrite Hrun. simpl. rewrite list_fmap_insert. apply list_insert_id.
      apply find_index_lookup in Hfind as [Hlookup _].
      rewrite list_lookup_fmap, Hlookup. simpl. by rewrite Hcount.
    + intros index' original_item' Hfind'. rewrite Hfind in Hfind'.
      injection Hfind' as <- <-. split.
      * intros Hne. by rewrite Hcount in Hne.
      * intros r. rewrite Hrun. simpl. by intros [= <-].
Qed.

(** *** Reading and removing *)

Lemma get_inventory_item_logs_found w item_id :
  item_id ∈ InventoryItem.id <$> inventory_items w →
  get_inventory_item_logs item_id w
  = (Returned (filter (λ log, InventoryLog.itemId log = item_id) (inventory_logs w)), w).
Proof.
  intros (item & Hid & Hin)%list_elem_of_fmap.
  unfold get_inventory_item_logs, bind, get, ret. simpl.
  rewrite bool_decide_true; [done|]. apply Exists_exists. by exists item.
Qed.

Lemma get_inventory_item_logs_not_found w item_id :
  item_id ∉ InventoryItem.id <$> inventory_items w →
  get_inventory_item_logs item_id w
  = (Raised (mkHTTPException 404 "Inventory item not found"), w).
Proof.
  intros Hnot. unfold get_inventory_item_logs, bind, get, raise. simpl.
  rewrite bool_decide_false; [done|].
  intros (item & Hin & Hid)%Exists_exists.
  apply Hnot, list_elem_of_fmap. by exists item.
Qed.

Lemma delete_inventory_item_found w item_id index item :
  find_index (λ item, InventoryItem.id item = item_id) (inventory_items w)
    = Some (index, item) →
  delete_inventory_item item_id w
  = (Returned tt,
     let w1 := adjusted w index item item_id (- InventoryItem.trayCount item)
                 "Item deleted" "system" in
     set_inventory_items (delete index (inventory_items w)) w1).
Proof.
  intros Hfind. unfold delete_inventory_item, bind, get, modify.
  pose proof Hfind as Hfind'. simpl in Hfind'. simpl. rewrite Hfind'.
  rewrite (adjust_inventory_ok _ _ _ _ _ _ _ Hfind) by lia.
  unfold set_inventory_items. simpl. by rewrite delete_insert_same.
Qed.

(** C10 (as amended).  [get_inventory_item_logs] raises 404 exactly when
    no batch with that id is in the store at the time of the call, and
    otherwise returns the batch's log entries in log order.
    [delete_inventory_item] appends one more entry to the log and deletes
    none, but takes the batch out of the store: for a batch whose id is
    unique, the logs endpoint raises 404 from then on. *)
Theorem get_inventory_item_logs_NotFound :
  (∀ w item_id,
     (item_id ∈ InventoryItem.id <$> inventory_items w →
      get_inventory_item_logs item_id w
      = (Returned (filter (λ log, InventoryLog.itemId log = item_id)
                     (inventory_logs w)), w))
     ∧ (item_id ∉ InventoryItem.id <$> inventory_items w →
        get_inventory_item_logs item_id w
        = (Raised (mkHTTPException 404 "Inventory item not found"), w)))
  ∧ (∀ w item_id index item,
       NoDup (InventoryItem.id <$> inventory_items w) →
       find_index (λ item, InventoryItem.id item = item_id) (inventory_items w)
         = Some (index, item) →
       let w' := after (delete_inventory_item item_id) w in
       result (delete_inventory_item item_id) w = Returned tt
       ∧ inventory_logs w'
         = inventory_logs w
             ++ [InventoryLog.mk (InventoryLog_id settings) item_id
                   (- InventoryItem.trayCount item) "Item deleted" (clock w) "system"]
       ∧ result (get_inventory_item_logs item_id) w'
         = Raised (mkHTTPException 404 "Inventory item not found")).
Proof.
  split.
  - intros w item_id. split.
    + apply get_inventory_item_logs_found.
    + apply get_inventory_item_logs_not_found.
  - intros w item_id index item Hnd Hfind w'. subst w'. unfold result, after.
    rewrite (delete_inventory_item_found _ _ _ _ Hfind). simpl.
    split; [done|]. split; [done|].
    rewrite get_inventory_item_logs_not_found; [done|]. simpl.
    rewrite list_fmap_delete.
    apply find_index_lookup in Hfind as [Hlookup Hid].
    apply NoDup_lookup_delete; [done|].
    by rewrite list_lookup_fmap, Hlookup, <-Hid.
Qed.

(** *** Orders *)

(** C6 (as amended).  [create_order] does not check that the request has
    a line: on an empty line list it succeeds, appends to [orders] an order
    with no items, status pending and total price [round(0, 2)], and
    leaves the inventory and its log untouched. *)
Theorem create_order_empty_items w order_data :
  OrderBody.items order_data = [] →
  let order :=
    Order.mk (uuid_of (uuid_draws w)) (OrderBody.customerName order_data)
      (OrderBody.customerContact order_data) (clock w)
      (OrderBody.pickupDate order_data) "pending" [] (Some (round_to 2 0%Q)) in
  let w' := after (create_order order_data) w in
  result (create_order order_data) w = Returned order
  ∧ orders w' = orders w ++ [order]
  ∧ inventory_items w' = inventory_items w
  ∧ inventory_logs w' = inventory_logs w.
Proof.
  intros Hitems. unfold result, after, create_order, bind, uuid4, now, modify, ret.
  rewrite Hitems. done.
Qed.

Lemma adjust_inventory_frame w item_id change reason user_id :
  let w' := after (adjust_inventory item_id change reason user_id) w in
  orders w' = orders w
  ∧ forecasts_cache w' = forecasts_cache w
  ∧ clock w' = clock w
  ∧ inventory_logs w `prefix_of` inventory_logs w'
  ∧ InventoryItem.id <$> inventory_items w' = InventoryItem.id <$> inventory_items w.
Proof.
  simpl. unfold after.
  destruct (adjust_inventory_cases w item_id change reason user_id)
    as [[_ [msg ->]]|(index & item & Hfind & [[_ [msg ->]]|[Hpos ->]])]; try done.
  simpl. repeat split; [by apply prefix_app_r|].
  rewrite list_fmap_insert. apply list_insert_id.
  apply find_index_lookup in Hfind as [Hlookup _].
  by rewrite list_lookup_fmap, Hlookup.
Qed.

(** A credit whose failure is printed and skipped. *)
Lemma try_adjust_inventory w item_id change reason user_id :
  try_except (adjust_inventory item_id change reason user_id) (λ _, ret tt) w
  = (Returned tt, after (adjust_inventory item_id change reason user_id) w).
Proof.
  unfold try_except, after, ret.
  destruct (adjust_inventory_cases w item_id change reason user_id)
    as [[_ [msg ->]]|(index & item & _ & [[_ [msg ->]]|[_ ->]])]; done.
Qed.

Lemma restore_order_items_cons w order_id item_dict rest :
  restore_order_items order_id (item_dict :: rest) w
  = restore_order_items order_id rest
      (after (adjust_inventory (OrderItem.inventoryItemId item_dict)
                (OrderItem.quantity item_dict)
                ("Order " +:+ order_id +:+ " cancelled") "system") w).
Proof.
  simpl. unfold bind at 1. by rewrite try_adjust_inventory.
Qed.

Lemma restore_order_items_returns order_id order_items_list w :
  result (restore_order_items order_id order_items_list) w = Returned tt
  ∧ orders (after (restore_order_items order_id order_items_list) w) = orders w
  ∧ inventory_logs w
      `prefix_of` inventory_logs (after (restore_order_items order_id order_items_list) w).
Proof.
  revert w. induction order_items_list as [|item_dict rest IH]; intros w; [done|].
  unfold result, after. rewrite restore_order_items_cons.
  destruct (adjust_inventory_frame w (OrderItem.inventoryItemId item_dict)
              (OrderItem.quantity item_dict)
              ("Order " +:+ order_id +:+ " cancelled") "system")
    as (Horders & _ & _ & Hlogs & _).
  destruct (IH (after (adjust_inventory (OrderItem.inventoryItemId item_dict)
                         (OrderItem.quantity item_dict)
                         ("Order " +:+ order_id +:+ " cancelled") "system") w))
    as (Hres & Horders' & Hlogs').
  unfold result, after in *. split; [done|]. split; [congruence|].
  by etrans.
Qed.

Lemma find_index_with_status l order_id status_val index order :
  find_index (λ o, Order.id o = order_id) l = Some (index, order) →
  find_index (λ o, Order.id o = order_id) (<[index := with_status status_val order]> l)
  = Some (index, with_status status_val order).
Proof.
  simpl. intros Hfind. apply list_find_Some in Hfind as (Hlookup & Hid & Hfirst).
  apply list_find_Some. split; [|split].
  - apply list_lookup_insert_eq. by eapply lookup_lt_Some.
  - done.
  - intros j y Hj Hlt. rewrite list_lookup_insert_ne in Hj by lia. by eapply Hfirst.
Qed.

Lemma with_status_same order :
  with_status (Order.status order) order = order.
Proof. by destruct order. Qed.

Lemma update_order_status_invalid w order_id status_val :
  status_val ∉ valid_statuses →
  ∃ msg, update_order_status order_id status_val w
         = (Raised (mkHTTPException 400 msg), w).
Proof.
  intros Hinvalid. unfold update_order_status.
  rewrite bool_decide_true by done. by eexists.
Qed.

Lemma update_order_status_not_found w order_id status_val :
  status_val ∈ valid_statuses →
  find_index (λ o, Order.id o = order_id) (orders w) = None →
  update_order_status order_id status_val w
  = (Raised (mkHTTPException 404 "Order not found"), w).
Proof.
  intros Hvalid Hfind. unfold update_order_status.
  rewrite bool_decide_false by (by intros ?).
  unfold bind, get. simpl in *. by rewrite Hfind.
Qed.

Lemma update_order_status_found w order_id status_val index order :
  status_val ∈ valid_statuses →
  find_index (λ o, Order.id o = order_id) (orders w) = Some (index, order) →
  update_order_status order_id status_val w
  = (Returned (with_status status_val order),
     set_orders (<[index := with_status status_val order]> (orders w))
       (if bool_decide (status_val = "cancelled" ∧ Order.status order ≠ "cancelled")
        then after (restore_order_items order_id (Order.items order)) w
        else w)).
Proof.
  intros Hvalid Hfind. unfold update_order_status.
  rewrite bool_decide_false by (by intros ?).
  unfold bind at 1. unfold get at 1. rewrite Hfind.
  apply find_index_lookup in Hfind as [Hlookup _].
  assert (∀ w1, orders w1 = orders w →
    (let* _ := modify (λ w, set_orders (alter (with_status status_val) index (orders w)) w) in
     let* w' := get in
     ret (default (with_status status_val order) (orders w' !! index))) w1
    = (Returned (with_status status_val order),
       set_orders (<[index := with_status status_val order]> (orders w)) w1)) as Hrest.
  { intros w1 Horders. unfold bind, modify, get, ret. simpl.
    rewrite Horders, (alter_lookup_insert _ _ _ _ Hlookup).
    rewrite list_lookup_insert_eq by (by eapply lookup_lt_Some). done. }
  unfold bind at 1. case_bool_decide.
  - destruct (restore_order_items_returns order_id (Order.items order) w)
      as (Hres & Horders & _).
    unfold result, after in *.
    destruct (restore_order_items order_id (Order.items order) w) as [o w1].
    simpl in *. subst o. by apply Hrest.
  - unfold ret at 1. by apply Hrest.
Qed.

Lemma cancel_order_after w order_id :
  after (cancel_order order_id) w
  = after (update_order_status order_id "cancelled") w.
Proof.
  unfold after, cancel_order, try_except, bind at 1.
  destruct (update_order_status order_id "cancelled" w) as [[e|o] w1]; simpl; [|done].
  by case_bool_decide.
Qed.

Lemma cancelled_is_valid : "cancelled" ∈ valid_statuses.
Proof. unfold valid_statuses. set_solver. Qed.

Lemma update_order_status_cancelled_again w order_id index order :
  find_index (λ o, Order.id o = order_id) (orders w) = Some (index, order) →
  Order.status order = "cancelled" →
  update_order_status order_id "cancelled" w = (Returned order, w).
Proof.
  intros Hfind Hstatus.
  rewrite (update_order_status_found _ _ _ _ _ cancelled_is_valid Hfind).
  rewrite bool_decide_false by (by intros [_ ?]).
  rewrite <-Hstatus, with_status_same.
  apply find_index_lookup in Hfind as [Hlookup _].
  rewrite list_insert_id by done.
  unfold set_orders. by rewrite world_eta.
Qed.

(** C4.  Cancelling an order that is already cancelled returns the stored
    order and leaves the whole store (ledger, orders, alerts) as it was, so
    no adjustment is made; and for every store and order id, cancelling
    twice ends in the same store as cancelling once. *)
Theorem cancel_order_idempotent :
  (∀ w order_id index order,
     find_index (λ o, Order.id o = order_id) (orders w) = Some (index, order) →
     Order.status order = "cancelled" →
     update_order_status order_id "cancelled" w = (Returned order, w)
     ∧ cancel_order order_id w = (Returned tt, w))
  ∧ (∀ w order_id,
       after (cancel_order order_id) (after (cancel_order order_id) w)
       = after (cancel_order order_id) w).
Proof.
  split.
  - intros w order_id index order Hfind Hstatus. split.
    + by eapply update_order_status_cancelled_again.
    + unfold cancel_order, try_except, bind at 1.
      by rewrite (update_order_status_cancelled_again _ _ _ _ Hfind Hstatus).
  - intros w order_id. rewrite !cancel_order_after.
    destruct (find_index (λ o, Order.id o = order_id) (orders w))
      as [[index order]|] eqn:Hfind.
    + unfold after at 2 3.
      rewrite (update_order_status_found _ _ _ _ _ cancelled_is_valid Hfind). simpl.
      set (w1 := set_orders _ _).
      assert (find_index (λ o, Order.id o = order_id) (orders w1)
              = Some (index, with_status "cancelled" order)) as Hfind1.
      { subst w1. unfold set_orders. cbn [orders]. by apply find_index_with_status. }
      unfold after.
      by rewrite (update_order_status_cancelled_again _ _ _ _ Hfind1).
    + unfold after at 2 3.
      rewrite (update_order_status_not_found _ _ _ cancelled_is_valid Hfind). simpl.
      unfold after.
      by rewrite (update_order_status_not_found _ _ _ cancelled_is_valid Hfind).
Qed.

(** *** Forecast cache *)

Lemma in_date_range_date_of t :
  in_datetime_range t → in_date_range (date_of t).
Proof.
  unfold in_datetime_range, in_date_range, datetime_min, datetime_max, date_of,
    days, seconds_per_day, date_min, date_max.
  intros [Hmin Hmax]. split.
  - apply Z.div_le_lower_bound; lia.
  - assert (t `div` 86400 < 2932896 + 1); [|lia].
    apply Z.div_lt_upper_bound; lia.
Qed.

Lemma date_plus_days_in_range d n :
  in_date_range d → in_date_range (d + n) → date_plus_days d n = Some (d + n).
Proof.
  unfold date_plus_days, in_date_range, date_min, date_max. intros Hd Hn.
  rewrite bool_decide_true; [done|]. unfold timedelta_max_days. lia.
Qed.

Lemma date_plus_days_out_of_range d n :
  ¬ in_date_range (d + n) → date_plus_days d n = None.
Proof.
  intros Hout. unfold date_plus_days. rewrite bool_decide_false; [done|].
  by intros [_ ?].
Qed.

Lemma datetime_minus_days_in_range t n :
  in_datetime_range t → in_datetime_range (t - days n) →
  datetime_minus_days t n = Some (t - days n).
Proof.
  unfold datetime_minus_days, in_datetime_range, datetime_min, datetime_max,
    days, seconds_per_day, date_min, date_max.
  intros Ht Hn. rewrite bool_decide_true; [done|]. unfold timedelta_max_days. lia.
Qed.

Lemma datetime_minus_days_out_of_range t n :
  ¬ in_datetime_range (t - days n) → datetime_minus_days t n = None.
Proof.
  intros Hout. unfold datetime_minus_days. rewrite bool_decide_false; [done|].
  by intros [_ ?].
Qed.

Lemma get_historical_sales_in_range days_back w :
  in_datetime_range (clock w) →
  in_datetime_range (clock w - days days_back) →
  get_historical_sales days_back w
  = Ended (Returned (sales_between (clock w - days days_back) (clock w) w)).
Proof.
  intros Hclock Hstart. unfold get_historical_sales. cbv zeta.
  by rewrite datetime_minus_days_in_range.
Qed.

Lemma get_demand_forecast_overflow w weeks :
  ¬ in_date_range (date_of (clock w) + 7 * weeks) →
  get_demand_forecast weeks w = (Stopped OverflowError, w).
Proof.
  intros Hout. unfold get_demand_forecast. cbv zeta.
  by rewrite date_plus_days_out_of_range.
Qed.

Lemma get_demand_forecast_hit w weeks cached :
  is_Some (date_plus_days (date_of (clock w)) (7 * weeks)) →
  forecasts_cache w !! (date_of (clock w), weeks) = Some cached →
  get_demand_forecast weeks w = (Ended (Returned cached), w).
Proof.
  intros [end_date Hend] Hhit. unfold get_demand_forecast. cbv zeta.
  by rewrite Hend, Hhit.
Qed.

Lemma get_demand_forecast_miss w weeks :
  let today := date_of (clock w) in
  let end_date := today + 7 * weeks in
  in_datetime_range (clock w) →
  in_datetime_range (clock w - days 60) →
  in_date_range end_date →
  forecasts_cache w !! (today, weeks) = None →
  let forecast :=
    Forecast.mk (Forecast_id settings) today end_date
      (forecast_predictions today end_date weeks (demand_frame w))
      (Forecast_createdAt settings) in
  get_demand_forecast weeks w
  = (Ended (Returned forecast),
     set_forecasts_cache (<[(today, weeks) := forecast]> (forecasts_cache w)) w).
Proof.
  intros today end_date Hclock Hstart Hend Hmiss forecast.
  unfold get_demand_forecast. cbv zeta. fold today.
  rewrite (date_plus_days_in_range today (7 * weeks))
    by (by try apply in_date_range_date_of).
  rewrite Hmiss, (get_historical_sales_in_range 60 w Hclock Hstart).
  done.
Qed.

(** The three ways into the fallback series. *)
Lemma forecast_predictions_fallback start_date end_date weeks df :
  (length df < 2)%nat
  ∨ prophet df (weeks * 7) = None
  ∨ (∃ forecast_df, prophet df (weeks * 7) = Some forecast_df
                    ∧ in_window start_date end_date forecast_df = []) →
  forecast_predictions start_date end_date weeks df
  = fallback_predictions start_date weeks (snd <$> df).
Proof.
  intros Hfallback. unfold forecast_predictions. cbv zeta.
  case_bool_decide as Hlen; [|done].
  destruct Hfallback as [Hshort|[Hraise|(forecast_df & Hsome & Hempty)]].
  - lia.
  - by rewrite Hraise.
  - rewrite Hsome. unfold in_window in Hempty. by rewrite Hempty.
Qed.

Lemma fallback_predictions_dates start_date weeks ys :
  ForecastPoint.date <$> fallback_predictions start_date weeks ys
  = seqZ start_date (weeks * 7).
Proof.
  unfold fallback_predictions. rewrite <-list_fmap_compose.
  transitivity (Z.add start_date <$> seqZ 0 (weeks * 7)).
  - by apply list_fmap_ext.
  - rewrite fmap_add_seqZ. f_equal. lia.
Qed.

Lemma fallback_predictions_constant start_date weeks ys :
  Forall (λ p, ForecastPoint.predictedTrays p = round_to 1 (mean_or_zero ys))
    (fallback_predictions start_date weeks ys).
Proof.
  unfold fallback_predictions. apply Forall_fmap, Forall_forall. by intros.
Qed.

(** With at most one observation the mean is an integer, which rounding
    to one decimal leaves as it is. *)
Lemma round_mean_short ys :
  (length ys < 2)%nat →
  (round_to 1 (mean_or_zero ys) == mean_or_zero ys)%Q
  ∧ (ys = [] → (round_to 1 (mean_or_zero ys) == 0)%Q).
Proof.
  intros Hlen. destruct ys as [|y [|y' ys]]; [done| |simpl in Hlen; lia].
  split; [|done].
  unfold mean_or_zero, round_to, round_half_even, Qeq. simpl.
  rewrite Z.div_1_r, Z.mod_1_r. simpl. lia.
Qed.

(** *** Conservation *)

Lemma sumZ_app l k : sumZ (l ++ k) = sumZ l + sumZ k.
Proof. induction l as [|x l IH]; simpl; lia. Qed.

Lemma logged_total_snoc item_id logs entry :
  logged_total item_id (logs ++ [entry])
  = logged_total item_id logs
    + (if decide (InventoryLog.itemId entry = item_id)
       then InventoryLog.change entry else 0).
Proof.
  unfold logged_total. rewrite filter_app, fmap_app, sumZ_app. f_equal.
  rewrite filter_cons, filter_nil. by case_decide; simpl; lia.
Qed.

(** Every applied adjustment keeps the conservation law: the count moves
    by the delta that is logged. *)
Lemma adjust_inventory_conserved w item_id change reason user_id :
  unique_ids w → conserved w →
  let w' := after (adjust_inventory item_id change reason user_id) w in
  unique_ids w' ∧ conserved w'.
Proof.
  intros Hnd Hcons w'. subst w'. unfold after.
  destruct (adjust_inventory_cases w item_id change reason user_id)
    as [[_ [msg ->]]|(index & item & Hfind & [[_ [msg ->]]|[Hpos ->]])]; try done.
  apply find_index_lookup in Hfind as [Hlookup Hid].
  assert (InventoryItem.id <$> <[index := with_trayCount
            (InventoryItem.trayCount item + change) item]> (inventory_items w)
          = InventoryItem.id <$> inventory_items w) as Hids.
  { rewrite list_fmap_insert. apply list_insert_id.
    by rewrite list_lookup_fmap, Hlookup. }
  split.
  - unfold unique_ids. simpl. by rewrite Hids.
  - unfold conserved. simpl. apply Forall_lookup. intros j x Hj.
    rewrite logged_total_snoc. simpl.
    destruct (decide (j = index)) as [->|Hne].
    + rewrite list_lookup_insert_eq in Hj by (by eapply lookup_lt_Some).
      injection Hj as <-. simpl. rewrite Hid, decide_True by done.
      rewrite (Forall_lookup_1 _ _ _ _ Hcons Hlookup). by rewrite Hid.
    + rewrite list_lookup_insert_ne in Hj by done.
      rewrite decide_False.
      * rewrite (Forall_lookup_1 _ _ _ _ Hcons Hj). lia.
      * intros Heq. apply Hne.
        apply (NoDup_lookup (InventoryItem.id <$> inventory_items w) j index item_id Hnd).
        -- rewrite list_lookup_fmap, Hj. simpl. by rewrite Heq.
        -- rewrite list_lookup_fmap, Hlookup. simpl. by rewrite Hid.
Qed.

(** [create_inventory_item] stores the requested count and then adjusts
    the stored item by the same count: with a fresh id, the new batch ends
    with twice the requested count while its log holds one entry, of the
    requested count. *)
Lemma create_inventory_item_counts_twice w item_data :
  let n := InventoryItemBody.trayCount item_data in
  let new_id := uuid_of (uuid_draws w) in
  let w' := after (create_inventory_item item_data) w in
  0 ≤ n →
  InventoryItemBody.status item_data ∈ allowed_item_statuses →
  new_id ∉ InventoryItem.id <$> inventory_items w →
  ∃ item,
    result (create_inventory_item item_data) w = Returned item
    ∧ InventoryItem.id item = new_id
    ∧ InventoryItem.trayCount item = n + n
    ∧ inventory_items w' = inventory_items w ++ [item]
    ∧ inventory_logs w'
      = inventory_logs w
          ++ [InventoryLog.mk (InventoryLog_id settings) new_id n
                "Manual creation" (clock w) "system"].
Proof.
  intros n new_id w' Hn Hstatus Hfresh. subst w'.
  set (item_dict :=
         InventoryItem.mk new_id (InventoryItemBody.variety item_data) n (clock w)
           (match InventoryItemBody.weightKg item_data with
            | Some v => v
            | None => None
            end)
           (InventoryItemBody.status item_data)).
  set (w1 := set_inventory_items (inventory_items w ++ [item_dict])
               (set_uuid_draws (S (uuid_draws w)) w)).
  assert (find_index (λ item, InventoryItem.id item = new_id) (inventory_items w1)
          = Some (length (inventory_items w), item_dict)) as Hfind.
  { subst w1. simpl. rewrite list_find_app_r by (by apply find_index_not_elem_of).
    simpl. by rewrite decide_True. }
  assert (create_inventory_item item_data w
          = (Returned (with_trayCount (n + n) item_dict),
             adjusted w1 (length (inventory_items w)) item_dict new_id n
               "Manual creation" "system")) as Hrun.
  { unfold create_inventory_item. fold n.
    destruct (Z.ltb_spec n 0); [lia|].
    rewrite bool_decide_false by (by intros ?).
    unfold bind, uuid4, now, get, modify, ret. simpl.
    fold new_id. fold item_dict. fold w1.
    rewrite (adjust_inventory_ok _ _ _ _ _ _ _ Hfind) by (simpl; lia).
    simpl. rewrite (insert_app_r_alt _ _ (length (inventory_items w))) by done.
    rewrite Nat.sub_diag. simpl.
    rewrite lookup_app_r by done. by rewrite Nat.sub_diag. }
  exists (with_trayCount (n + n) item_dict).
  unfold result, after. rewrite Hrun. simpl.
  rewrite (insert_app_r_alt _ _ (length (inventory_items w))) by done.
  by rewrite Nat.sub_diag.
Qed.

(** *** Conservation under the operations other than creation *)

Lemma keeps_ret {A} (a : A) : keeps (ret a).
Proof. by intros w. Qed.

Lemma keeps_raise {A} code msg : keeps (raise (A := A) code msg).
Proof. by intros w. Qed.

Lemma keeps_get : keeps get.
Proof. by intros w. Qed.

Lemma keeps_bind {A B} (m : M A) (k : A → M B) :
  keeps m → (∀ a, keeps (k a)) → keeps (bind m k).
Proof.
  intros Hm Hk w Hsound. specialize (Hm w Hsound).
  unfold after, bind in *. destruct (m w) as [[e|a] w1]; [done|].
  by apply Hk.
Qed.

Lemma keeps_try_except {A} (body : M A) (handler : HTTPException → M A) :
  keeps body → (∀ e, keeps (handler e)) → keeps (try_except body handler).
Proof.
  intros Hbody Hhandler w Hsound. specialize (Hbody w Hsound).
  unfold after, try_except in *. destruct (body w) as [[e|a] w1]; [|done].
  by apply Hhandler.
Qed.

(** Writes that leave the batches and the log alone. *)
Lemma keeps_modify (f : World → World) :
  (∀ w, inventory_items (f w) = inventory_items w
        ∧ inventory_logs (f w) = inventory_logs w) →
  keeps (modify f).
Proof.
  intros Hframe w [Hnd Hcons]. destruct (Hframe w) as [Hitems Hlogs].
  unfold after, modify, ledger_sound, unique_ids, conserved. simpl.
  by rewrite Hitems, Hlogs.
Qed.

Lemma keeps_uuid4 : keeps uuid4.
Proof. by intros w. Qed.

Lemma keeps_adjust_inventory item_id change reason user_id :
  keeps (adjust_inventory item_id change reason user_id).
Proof. intros w [Hnd Hcons]. by apply adjust_inventory_conserved. Qed.

Lemma keeps_revert_adjustments order_id adjs :
  keeps (revert_adjustments order_id adjs).
Proof.
  induction adjs as [|[adj_item_id adj_qty] adjs IH]; [apply keeps_ret|].
  simpl. apply keeps_bind; [|done].
  apply keeps_try_except; [apply keeps_adjust_inventory|].
  intros _. apply keeps_ret.
Qed.

Lemma keeps_restore_order_items order_id order_items_list :
  keeps (restore_order_items order_id order_items_list).
Proof.
  induction order_items_list as [|item_dict rest IH]; [apply keeps_ret|].
  simpl. apply keeps_bind; [|done].
  apply keeps_try_except; [apply keeps_adjust_inventory|].
  intros _. apply keeps_ret.
Qed.

Lemma keeps_create_order_items order_id items :
  ∀ i total_price processed_items adjs,
    keeps (create_order_items order_id i items total_price processed_items adjs).
Proof.
  induction items as [|line rest IH]; intros i total_price processed_items adjs;
    [apply keeps_ret|].
  simpl. apply keeps_bind; [apply keeps_uuid4|]. intros item_uuid.
  apply keeps_bind; [apply keeps_get|]. intros w0.
  destruct (list_find _ _) as [[inv_index inventory_item]|]; [|apply keeps_raise].
  case_bool_decide; [apply keeps_raise|].
  apply keeps_bind; [|intros _; apply IH].
  apply keeps_try_except; [apply keeps_adjust_inventory|].
  intros e. apply keeps_bind; [apply keeps_revert_adjustments|].
  intros _. apply keeps_raise.
Qed.

Lemma keeps_create_order order_data : keeps (create_order order_data).
Proof.
  unfold create_order.
  apply keeps_bind; [apply keeps_uuid4|]. intros order_id.
  apply keeps_bind; [by intros w|]. intros order_date.
  apply keeps_bind; [apply keeps_create_order_items|]. intros r.
  apply keeps_bind; [by apply keeps_modify|]. intros _. apply keeps_ret.
Qed.

Lemma keeps_update_order_status order_id status_val :
  keeps (update_order_status order_id status_val).
Proof.
  unfold update_order_status. case_bool_decide; [apply keeps_raise|].
  apply keeps_bind; [apply keeps_get|]. intros w0.
  destruct (find_index _ _) as [[index order]|]; [|apply keeps_raise].
  apply keeps_bind.
  { case_bool_decide; [apply keeps_restore_order_items|apply keeps_ret]. }
  intros _. apply keeps_bind; [by apply keeps_modify|]. intros _.
  apply keeps_bind; [apply keeps_get|]. intros w1. apply keeps_ret.
Qed.

Lemma keeps_cancel_order order_id : keeps (cancel_order order_id).
Proof.
  unfold cancel_order. apply keeps_try_except.
  - apply keeps_bind; [apply keeps_update_order_status|]. intros _. apply keeps_ret.
  - intros e. case_bool_decide; [apply keeps_raise|]. by intros w.
Qed.

Lemma keeps_delete_inventory_item item_id : keeps (delete_inventory_item item_id).
Proof.
  unfold delete_inventory_item.
  apply keeps_bind; [apply keeps_get|]. intros w0.
  destruct (find_index _ _) as [[index item]|]; [|apply keeps_raise].
  apply keeps_bind; [apply keeps_adjust_inventory|]. intros _.
  intros w [Hnd Hcons]. unfold after, modify, ledger_sound, unique_ids, conserved.
  simpl. split.
  - rewrite list_fmap_delete. eapply sublist_NoDup; [exact Hnd|apply sublist_delete].
  - by apply Forall_delete.
Qed.

(** X16.  Every sequence of adjustments, order creations, status updates,
    cancellations and batch removals keeps the conservation law; batch
    creation is the one operation that does not. *)
Theorem perform_all_conserved ops w :
  ledger_sound w → ledger_sound (perform_all ops w).
Proof.
  revert w. induction ops as [|op ops IH]; intros w Hsound; [done|].
  unfold perform_all in *. simpl. apply IH.
  destruct op as [c|order_data|order_id status_val|order_id|item_id]; simpl.
  - by apply keeps_adjust_inventory.
  - by apply keeps_create_order.
  - by apply keeps_update_order_status.
  - by apply keeps_cancel_order.
  - by apply keeps_delete_inventory_item.
Qed.

(** *** Order creation and its rollback *)

Lemma list_find_insert_same_key {A K : Type} `{EqDecision K} (key : A → K)
    (k : K) (l : list A) (i : nat) (x x' : A) :
  l !! i = Some x → key x' = key x →
  list_find (λ y, key y = k) (<[i := x']> l)
  = (λ p : nat * A, (p.1, if decide (p.1 = i) then x' else p.2))
      <$> list_find (λ y, key y = k) l.
Proof.
  revert i. induction l as [|y l IH]; intros [|i] Hi Hkey; simplify_eq/=.
  - rewrite Hkey. case_decide; [done|].
    by destruct (list_find _ l) as [[j z]|].
  - case_decide; [done|].
    rewrite (IH i Hi Hkey). destruct (list_find _ l) as [[j z]|]; simpl; [|done].
    do 2 f_equal. by repeat case_decide; simplify_eq.
Qed.

Lemma with_trayCount_twice n m item :
  with_trayCount n (with_trayCount m item) = with_trayCount n item.
Proof. done. Qed.

Lemma with_trayCount_same item :
  with_trayCount (InventoryItem.trayCount item) item = item.
Proof. by destruct item. Qed.

Lemma find_index_bump item_id' item_id delta items :
  find_index (λ item, InventoryItem.id item = item_id') (bump item_id delta items)
  = (λ p : nat * InventoryItem.t,
       (p.1, if decide (item_id' = item_id)
             then with_trayCount (InventoryItem.trayCount p.2 + delta) p.2
             else p.2))
      <$> find_index (λ item, InventoryItem.id item = item_id') items.
Proof.
  unfold bump.
  destruct (find_index (λ item, InventoryItem.id item = item_id) items)
    as [[index item]|] eqn:Hfind.
  - pose proof Hfind as [Hlookup Hid]%find_index_lookup. simpl in *.
    rewrite (list_find_insert_same_key InventoryItem.id item_id' items index item)
      by done.
    destruct (decide (item_id' = item_id)) as [->|Hne].
    + rewrite Hfind. simpl. by rewrite decide_True.
    + destruct (list_find (λ y, InventoryItem.id y = item_id') items)
        as [[j x]|] eqn:Hfind'; simpl; [|done].
      rewrite decide_False; [done|]. intros ->.
      apply list_find_Some in Hfind' as (Hlookup' & Hid' & _). congruence.
  - simpl in *. destruct (decide (item_id' = item_id)) as [->|Hne].
    + by rewrite Hfind.
    + by destruct (list_find (λ y, InventoryItem.id y = item_id') items) as [[j x]|].
Qed.

Lemma bump_bump item_id delta delta' items :
  bump item_id delta' (bump item_id delta items)
  = bump item_id (delta + delta') items.
Proof.
  unfold bump at 1. rewrite find_index_bump. unfold bump.
  destruct (find_index (λ item, InventoryItem.id item = item_id) items)
    as [[index item]|]; simpl; [|done].
  rewrite decide_True by done. rewrite list_insert_insert_eq. simpl.
  rewrite with_trayCount_twice. by rewrite Z.add_assoc.
Qed.

Lemma bump_zero item_id items : bump item_id 0 items = items.
Proof.
  unfold bump.
  destruct (find_index (λ item, InventoryItem.id item = item_id) items)
    as [[index item]|] eqn:Hfind; [|done].
  apply find_index_lookup in Hfind as [Hlookup _].
  rewrite Z.add_0_r, with_trayCount_same. by apply list_insert_id.
Qed.

Lemma bump_comm a x b y items :
  bump a x (bump b y items) = bump b y (bump a x items).
Proof.
  destruct (decide (a = b)) as [->|Hne].
  { rewrite !bump_bump. f_equal. lia. }
  unfold bump at 1 3. rewrite !find_index_bump. unfold bump.
  destruct (find_index (λ item, InventoryItem.id item = a) items)
    as [[i item]|] eqn:Ha;
    destruct (find_index (λ item, InventoryItem.id item = b) items)
    as [[j item']|] eqn:Hb; simpl; rewrite ?decide_False by done; try done.
  apply list_insert_insert_ne. intros ->.
  apply find_index_lookup in Ha as [Ha Hida].
  apply find_index_lookup in Hb as [Hb Hidb]. congruence.
Qed.



Lemma inventory_items_adjusted w index item item_id change reason user_id :
  find_index (λ item, InventoryItem.id item = item_id) (inventory_items w)
    = Some (index, item) →
  inventory_items (adjusted w index item item_id change reason user_id)
  = bump item_id change (inventory_items w).
Proof. intros Hfind. unfold bump. by rewrite Hfind. Qed.

Lemma debited_bump adjs item_id delta items index item :
  find_index (λ item, InventoryItem.id item = item_id) items = Some (index, item) →
  0 ≤ InventoryItem.trayCount item + delta →
  debited adjs items → debited adjs (bump item_id delta items).
Proof.
  intros Hfind Hpos Hdebited. unfold debited.
  eapply Forall_impl; [exact Hdebited|].
  intros [adj_id adj_qty] (Hqty & j & x & Hfind' & Hcount). simpl in *.
  split; [done|]. rewrite find_index_bump. simpl. rewrite Hfind'. simpl.
  eexists _, _. split; [done|].
  case_decide as Heq; [|done]. simpl. subst adj_id.
  rewrite Hfind in Hfind'. by simplify_eq.
Qed.


(** *** Cancellation and the reversal of an order *)

Lemma restore_order_items_reversal order_id order_items_list w :
  ledger (after (restore_order_items order_id order_items_list) w)
  = reversal order_id (clock w) (order_item_adjustment <$> order_items_list)
      (ledger w).
Proof.
  revert w. induction order_items_list as [|item_dict rest IH]; intros w; [done|].
  unfold after in *. rewrite restore_order_items_cons, IH.
  rewrite fmap_cons. unfold reversal. cbn [foldl].
  set (w1 := after _ w).
  assert (clock w1 = clock w
          ∧ ledger w1
            = reverse_line order_id (clock w) (ledger w)
                (order_item_adjustment item_dict)) as [-> ->]; [|done].
  subst w1. unfold after, reverse_line, ledger, order_item_adjustment.
  cbn [fst snd].
  destruct (find_index (λ item, InventoryItem.id item
                                = OrderItem.inventoryItemId item_dict)
              (inventory_items w)) as [[index item]|] eqn:Hfind.
  - destruct (Z_lt_le_dec (InventoryItem.trayCount item
                           + OrderItem.quantity item_dict) 0) as [Hneg|Hpos].
    + rewrite (adjust_inventory_negative _ _ _ _ _ _ _ Hfind Hneg).
      by rewrite bool_decide_false by lia.
    + rewrite (adjust_inventory_ok _ _ _ _ _ _ _ Hfind Hpos).
      rewrite bool_decide_true by lia. cbn [snd]. split; [done|].
      by rewrite (inventory_items_adjusted _ _ _ _ _ _ _ Hfind).
  - by rewrite (adjust_inventory_not_found _ _ _ _ _ Hfind).
Qed.

Lemma reverse_line_credits order_id t items logs adj index item :
  find_index (λ item, InventoryItem.id item = adj.1) items = Some (index, item) →
  0 ≤ InventoryItem.trayCount item + adj.2 →
  reverse_line order_id t (items, logs) adj
  = (bump adj.1 adj.2 items, logs ++ [cancel_entry order_id t adj]).
Proof.
  intros Hfind Hpos. unfold reverse_line. cbn [fst snd].
  by rewrite Hfind, bool_decide_true.
Qed.

Lemma reversal_debited order_id t adjs items logs :
  debited adjs items →
  reversal order_id t adjs (items, logs)
  = (credit_all adjs items, logs ++ (cancel_entry order_id t <$> adjs)).
Proof.
  revert items logs.
  induction adjs as [|adj adjs IH]; intros items logs Hdebited.
  - simpl. by rewrite app_nil_r.
  - apply Forall_cons in Hdebited as [(Hqty & index & item & Hfind & Hcount) Hrest].
    unfold reversal, credit_all in *. cbn [foldl].
    rewrite (reverse_line_credits _ _ _ _ _ _ _ Hfind) by lia.
    rewrite IH by (eapply debited_bump; [exact Hfind|lia|exact Hrest]).
    rewrite fmap_cons. by rewrite <-app_assoc.
Qed.

Lemma find_index_credit_all item_id adjs items :
  find_index (λ item, InventoryItem.id item = item_id) (credit_all adjs items)
  = (λ p : nat * InventoryItem.t,
       (p.1, with_trayCount (InventoryItem.trayCount p.2 + credited item_id adjs) p.2))
      <$> find_index (λ item, InventoryItem.id item = item_id) items.
Proof.
  revert items. induction adjs as [|[adj_item_id adj_qty] adjs IH]; intros items.
  - unfold credit_all, credited. cbn [foldl].
    destruct (find_index _ items) as [[index item]|]; [|done].
    simpl. by rewrite Z.add_0_r, with_trayCount_same.
  - change (credit_all ((adj_item_id, adj_qty) :: adjs) items)
      with (credit_all adjs (bump adj_item_id adj_qty items)).
    rewrite IH, find_index_bump. cbn [fst snd].
    destruct (find_index (λ item, InventoryItem.id item = item_id) items)
      as [[index item]|]; [|done].
    unfold credited. rewrite filter_cons. cbn [fst snd fmap option_fmap option_map].
    destruct (decide (item_id = adj_item_id)) as [->|Hne].
    + rewrite decide_True by done. rewrite fmap_cons, with_trayCount_twice.
      do 2 f_equal. unfold with_trayCount, sumZ. f_equal. simpl. lia.
    + by rewrite decide_False by done.
Qed.

(** C5 (as amended).  What a status update does to the ledger depends on
    one test only: the new status is cancelled and the stored one is not.
    An update of an order that is already cancelled, and an update to any
    status other than cancelled, leave the ledger as it was.  An update to
    cancelled of an order in any other status (pending, confirmed or
    completed) reverses the order line by line: each line whose batch is in
    the store, with a count that its quantity keeps non-negative, is
    credited and logged, the others are passed over.  When every line
    names a batch of the store, counts and quantities being non-negative,
    every line is credited: the log receives one credit entry per line, in
    order, and each batch ends with its count plus all that the lines hold
    for it. *)
Theorem update_order_status_ledger w order_id status_val index order :
  find_index (λ o, Order.id o = order_id) (orders w) = Some (index, order) →
  let w' := after (update_order_status order_id status_val) w in
  let lines := order_item_adjustment <$> Order.items order in
  (Order.status order = "cancelled" ∨ status_val ≠ "cancelled" → ledger w' = ledger w)
  ∧ (status_val = "cancelled" → Order.status order ≠ "cancelled" →
     ledger w' = reversal order_id (clock w) lines (ledger w)
     ∧ (debited lines (inventory_items w) →
        inventory_logs w'
        = inventory_logs w ++ (cancel_entry order_id (clock w) <$> lines)
        ∧ inventory_items w' = credit_all lines (inventory_items w)
        ∧ ∀ item_id inv_index item,
            find_index (λ item, InventoryItem.id item = item_id) (inventory_items w)
              = Some (inv_index, item) →
            find_index (λ item, InventoryItem.id item = item_id) (inventory_items w')
            = Some (inv_index,
                    with_trayCount (InventoryItem.trayCount item
                                    + credited item_id lines) item))).
Proof.
  intros Hfind w' lines. subst w'.
  destruct (decide (status_val ∈ valid_statuses)) as [Hvalid|Hinvalid].
  - assert (ledger (after (update_order_status order_id status_val) w)
            = ledger (if bool_decide (status_val = "cancelled"
                                      ∧ Order.status order ≠ "cancelled")
                      then after (restore_order_items order_id (Order.items order)) w
                      else w)) as Hafter.
    { unfold after at 1.
      by rewrite (update_order_status_found _ _ _ _ _ Hvalid Hfind). }
    split.
    + intros Hnoop. rewrite Hafter, bool_decide_false; [done|].
      intros [? ?]. by destruct Hnoop.
    + intros -> Hstatus. rewrite bool_decide_true in Hafter by done.
      rewrite restore_order_items_reversal in Hafter. fold lines in Hafter.
      split; [done|]. intros Hdebited. unfold ledger in Hafter.
      rewrite (reversal_debited _ _ _ _ _ Hdebited) in Hafter.
      injection Hafter as Hitems Hlogs.
      split; [done|]. split; [done|].
      intros item_id inv_index item Hitem.
      by rewrite Hitems, find_index_credit_all, Hitem.
  - destruct (update_order_status_invalid w order_id status_val Hinvalid) as [msg Hrun].
    unfold after. rewrite Hrun. cbn [snd]. split; [done|].
    intros ->. by destruct Hinvalid; apply cancelled_is_valid.
Qed.

Lemma create_order_items_step order_id i line rest total_price processed_items adjs w :
  let w0 := set_uuid_draws (S (uuid_draws w)) w in
  let inventoryItemId := OrderItemBody.inventoryItemId line in
  let quantity := OrderItemBody.quantity line in
  create_order_items order_id i (line :: rest) total_price processed_items adjs w
  = match find_index (λ inv, InventoryItem.id inv = inventoryItemId)
            (inventory_items w) with
    | None =>
        (Raised (mkHTTPException 404
           ("Inventory item " +:+ inventoryItemId +:+ " for order item "
            +:+ pretty (S i) +:+ " not found")), w0)
    | Some (_, inventory_item) =>
        if bool_decide (InventoryItem.variety inventory_item
                        ≠ OrderItemBody.variety line) then
          (Raised (mkHTTPException 400
             ("Variety mismatch for inventory item " +:+ inventoryItemId)), w0)
        else
          match adjust_inventory inventoryItemId (- quantity)
                  ("Order " +:+ order_id) "system" w0 with
          | (Returned _, w1) =>
              create_order_items order_id (S i) rest
                (total_price
                 + inject_Z quantity
                   * price_or_default (OrderItemBody.price_per_tray line))%Q
                (processed_items
                   ++ [OrderItem.mk (uuid_of (uuid_draws w)) order_id inventoryItemId
                         (OrderItemBody.variety line) quantity
                         (Some (price_or_default (OrderItemBody.price_per_tray line)))])
                (adjs ++ [(inventoryItemId, quantity)]) w1
          | (Raised e, w1) =>
              match revert_adjustments order_id adjs w1 with
              | (Returned _, w2) =>
                  (Raised (mkHTTPException 400
                     ("Insufficient stock for " +:+ OrderItemBody.variety line
                      +:+ " (Item ID: " +:+ inventoryItemId +:+ "): "
                      +:+ detail e)), w2)
              | (Raised e', w2) => (Raised e', w2)
              end
          end
    end.
Proof.
  simpl. unfold bind, uuid4, get, raise, try_except. simpl.
  destruct (list_find _ _) as [[inv_index inventory_item]|]; [|done].
  case_bool_decide; [done|].
  destruct (adjust_inventory _ _ _ _ _) as [[e|[]] w1]; [|done].
  by destruct (revert_adjustments _ _ _) as [[e'|[]] w2].
Qed.


Lemma create_order_run w order_data :
  let order_id := uuid_of (uuid_draws w) in
  create_order order_data w
  = match create_order_items order_id 0 (OrderBody.items order_data) 0%Q [] []
            (set_uuid_draws (S (uuid_draws w)) w) with
    | (Raised e, w1) => (Raised e, w1)
    | (Returned r, w1) =>
        let order_dict :=
          Order.mk order_id (OrderBody.customerName order_data)
            (OrderBody.customerContact order_data) (clock w)
            (OrderBody.pickupDate order_data) "pending" r.2
            (Some (round_to 2 r.1)) in
        (Returned order_dict, set_orders (orders w1 ++ [order_dict]) w1)
    end.
Proof.
  unfold create_order, bind, uuid4, now, modify, ret. simpl.
  by destruct (create_order_items _ _ _ _ _ _ _) as [[e|r] w1].
Qed.


(** ** Further properties of the endpoints *)

Lemma find_index_key_None {A} (key : A → string) (k : string) (l : list A) :
  k ∉ key <$> l → find_index (λ x, key x = k) l = None.
Proof.
  intros Hnot. simpl. apply list_find_None, Forall_forall.
  intros x Hin Hkey. apply Hnot, list_elem_of_fmap. by exists x.
Qed.

Lemma find_index_key_snoc {A} (key : A → string) (l : list A) (x : A) :
  key x ∉ key <$> l →
  find_index (λ y, key y = key x) (l ++ [x]) = Some (length l, x).
Proof.
  intros Hfresh. simpl.
  rewrite list_find_app_r by (by apply (find_index_key_None key)).
  simpl. by rewrite decide_True.
Qed.


(** X2.  [delete_inventory_item] answers 404 and changes nothing when no
    batch has the id.  Otherwise it never refuses, whatever the count:
    the batch is taken out of the list, the other batches keeping their
    order, and orders are not touched.  Since the removal is logged as an
    adjustment to zero, deleting a batch that still holds trays raises a
    low-stock alert (when the threshold is positive), and deleting an
    empty one raises none. *)
Theorem delete_inventory_item_effect w item_id :
  (item_id ∉ InventoryItem.id <$> inventory_items w →
   delete_inventory_item item_id w
   = (Raised (mkHTTPException 404 "Inventory item not found"), w))
  ∧ (∀ index item,
       find_index (λ item, InventoryItem.id item = item_id) (inventory_items w)
         = Some (index, item) →
       let w' := after (delete_inventory_item item_id) w in
       result (delete_inventory_item item_id) w = Returned tt
       ∧ inventory_items w' = delete index (inventory_items w)
       ∧ orders w' = orders w
       ∧ (0 < InventoryItem.trayCount item → 0 < low_stock_threshold settings →
          notifications w'
          = notifications w
              ++ [Notification.mk (uuid_of (uuid_draws w)) (alert_msg item 0)
                    "alert" (clock w) false])
       ∧ (InventoryItem.trayCount item ≤ 0 ∨ low_stock_threshold settings ≤ 0 →
          notifications w' = notifications w)).
Proof.
  split.
  - intros Hnot. unfold delete_inventory_item, bind, get.
    by rewrite (find_index_not_elem_of _ _ Hnot).
  - intros index item Hfind w'. subst w'. unfold result, after.
    rewrite (delete_inventory_item_found _ _ _ _ Hfind). simpl.
    unfold low_stock. rewrite Z.add_opp_diag_r.
    repeat split; try done.
    + intros Hcount Hthreshold.
      destruct (Z.ltb_spec (- InventoryItem.trayCount item) 0); [|lia].
      by destruct (Z.ltb_spec 0 (low_stock_threshold settings)); [|lia].
    + intros Hquiet.
      destruct (Z.ltb_spec (- InventoryItem.trayCount item) 0); [|done].
      destruct (Z.ltb_spec 0 (low_stock_threshold settings)); [lia|done].
Qed.

(** X3.  [create_inventory_log] refuses with 400 a body whose [itemId] is
    not the id of the path, changing nothing.  Otherwise it does what
    [adjust_inventory] does with the body's change, reason and user: a
    refused adjustment is passed on as it is, and an applied one is
    answered with the very entry that was appended to the log; the 500
    answer is never given. *)
Theorem create_inventory_log_effect w item_id log_entry_data :
  let adjust := adjust_inventory item_id (InventoryLog.change log_entry_data)
                  (InventoryLog.reason log_entry_data)
                  (InventoryLog.userId log_entry_data) in
  (InventoryLog.itemId log_entry_data ≠ item_id →
   create_inventory_log item_id log_entry_data w
   = (Raised (mkHTTPException 400 "Log entry itemId must match path item_id"), w))
  ∧ (InventoryLog.itemId log_entry_data = item_id →
     (∀ e, result adjust w = Raised e →
           create_inventory_log item_id log_entry_data w = (Raised e, w))
     ∧ (result adjust w = Returned tt →
        let entry :=
          InventoryLog.mk (InventoryLog_id settings) item_id
            (InventoryLog.change log_entry_data) (InventoryLog.reason log_entry_data)
            (clock w) (InventoryLog.userId log_entry_data) in
        create_inventory_log item_id log_entry_data w
        = (Returned entry, after adjust w)
        ∧ inventory_logs (after adjust w) = inventory_logs w ++ [entry])).
Proof.
  intros adjust. subst adjust. split.
  - intros Hne. unfold create_inventory_log. by rewrite bool_decide_true.
  - intros Heq. unfold create_inventory_log.
    rewrite bool_decide_false by (by intros ?).
    unfold bind, get, result, after.
    destruct (adjust_inventory_cases w item_id (InventoryLog.change log_entry_data)
                (InventoryLog.reason log_entry_data)
                (InventoryLog.userId log_entry_data))
      as [[_ [msg Hrun]]|(index & item & Hfind & [[_ [msg Hrun]]|[Hpos Hrun]])];
      rewrite Hrun; simpl.
    + split; [by intros e [= <-]|done].
    + split; [by intros e [= <-]|done].
    + split; [done|]. intros _.
      rewrite reverse_snoc. simpl. by rewrite decide_True.
Qed.

(** X4.  [create_inventory_item] refuses with 400, before anything is
    written or drawn, a negative tray count or a status outside the three
    allowed ones.  Any other request, the drawn id being new, is accepted:
    one batch is appended, carrying the drawn id and the variety and
    status of the request, with the time of the call as harvest date
    whatever date the request gave; and [get_inventory_item] on the new id
    then answers with the batch that the creation returned. *)
Theorem create_inventory_item_validation w item_data :
  let new_id := uuid_of (uuid_draws w) in
  let w' := after (create_inventory_item item_data) w in
  (InventoryItemBody.trayCount item_data < 0
   ∨ InventoryItemBody.status item_data ∉ allowed_item_statuses →
   ∃ msg, create_inventory_item item_data w = (Raised (mkHTTPException 400 msg), w))
  ∧ (0 ≤ InventoryItemBody.trayCount item_data →
     InventoryItemBody.status item_data ∈ allowed_item_statuses →
     new_id ∉ InventoryItem.id <$> inventory_items w →
     ∃ item,
       result (create_inventory_item item_data) w = Returned item
       ∧ InventoryItem.id item = new_id
       ∧ InventoryItem.variety item = InventoryItemBody.variety item_data
       ∧ InventoryItem.status item = InventoryItemBody.status item_data
       ∧ InventoryItem.harvestDate item = clock w
       ∧ inventory_items w' = inventory_items w ++ [item]
       ∧ get_inventory_item new_id w' = (Returned item, w')).
Proof.
  intros new_id w'. split.
  - intros Hbad. unfold create_inventory_item.
    destruct (Z.ltb_spec (InventoryItemBody.trayCount item_data) 0); [by eexists|].
    destruct Hbad as [?|Hstatus]; [lia|].
    rewrite bool_decide_true by done. by eexists.
  - intros Hn Hstatus Hfresh. subst w'.
    set (n := InventoryItemBody.trayCount item_data) in *.
    set (item_dict :=
           InventoryItem.mk new_id (InventoryItemBody.variety item_data) n (clock w)
             (match InventoryItemBody.weightKg item_data with
              | Some v => v
              | None => None
              end)
             (InventoryItemBody.status item_data)).
    set (w1 := set_inventory_items (inventory_items w ++ [item_dict])
                 (set_uuid_draws (S (uuid_draws w)) w)).
    assert (find_index (λ item, InventoryItem.id item = new_id) (inventory_items w1)
            = Some (length (inventory_items w), item_dict)) as Hfind.
    { subst w1. cbn [inventory_items set_inventory_items].
      by apply (find_index_key_snoc InventoryItem.id _ item_dict). }
    assert (create_inventory_item item_data w
            = (Returned (with_trayCount (n + n) item_dict),
               adjusted w1 (length (inventory_items w)) item_dict new_id n
                 "Manual creation" "system")) as Hrun.
    { unfold create_inventory_item. fold n.
      destruct (Z.ltb_spec n 0); [lia|].
      rewrite bool_decide_false by (by intros ?).
      unfold bind, uuid4, now, get, modify, ret. simpl.
      fold new_id. fold item_dict. fold w1.
      rewrite (adjust_inventory_ok _ _ _ _ _ _ _ Hfind) by (simpl; lia).
      simpl. rewrite (insert_app_r_alt _ _ (length (inventory_items w))) by done.
      rewrite Nat.sub_diag. simpl.
      rewrite lookup_app_r by done. by rewrite Nat.sub_diag. }
    exists (with_trayCount (n + n) item_dict).
    unfold result, after. rewrite Hrun. simpl.
    rewrite (insert_app_r_alt _ _ (length (inventory_items w))) by done.
    rewrite Nat.sub_diag. simpl. repeat split; try done.
    unfold get_inventory_item, bind, get. cbn [inventory_items adjusted].
    subst w1. cbn [inventory_items set_inventory_items].
    rewrite (insert_app_r_alt _ _ (length (inventory_items w))) by done.
    rewrite Nat.sub_diag. cbn [insert list_insert].
    by rewrite (find_index_key_snoc InventoryItem.id _ (with_trayCount _ item_dict)).
Qed.

(** X5.  An accepted [update_inventory_item] that does not rename the
    batch (the body gives no id, or the id of the path) keeps the batch
    ids distinct and the conservation law: every stored count is still the
    sum of the deltas logged for its batch. *)
Theorem update_inventory_item_keeps_sound item_id updated_item_data :
  InventoryItemBody.id updated_item_data = None
  ∨ InventoryItemBody.id updated_item_data = Some item_id →
  keeps (update_inventory_item item_id updated_item_data).
Proof.
  intros Hid w [Hnd Hcons]. unfold after.
  destruct (update_inventory_item_cases w item_id updated_item_data)
    as [[e ->]|(index & original_item & Hfind & Hcount & ->)]; [done|].
  apply find_index_lookup in Hfind as [Hlookup Horig].
  assert (InventoryItem.id (merge_update original_item updated_item_data)
          = InventoryItem.id original_item) as Hsame.
  { unfold merge_update. simpl. destruct Hid as [->| ->]; simpl; congruence. }
  unfold ledger_sound, unique_ids, conserved. simpl. split.
  - rewrite list_fmap_insert, Hsame. rewrite list_insert_id; [done|].
    by rewrite list_lookup_fmap, Hlookup.
  - apply Forall_insert; [done|]. rewrite Hsame. simpl. rewrite Hcount.
    by apply (Forall_lookup_1 _ _ _ _ Hcons Hlookup).
Qed.

(** X6.  [update_order_status] refuses an unknown status with 400 and an
    unknown order with 404, changing nothing.  Any of the four statuses
    is accepted from any current status: the first order with the id gets
    the new status and is returned, its other fields and every other
    order staying as they were. *)
Theorem update_order_status_effect w order_id status_val :
  (status_val ∉ valid_statuses →
   ∃ msg, update_order_status order_id status_val w
          = (Raised (mkHTTPException 400 msg), w))
  ∧ (status_val ∈ valid_statuses →
     order_id ∉ Order.id <$> orders w →
     update_order_status order_id status_val w
     = (Raised (mkHTTPException 404 "Order not found"), w))
  ∧ (status_val ∈ valid_statuses →
     ∀ index order,
       find_index (λ o, Order.id o = order_id) (orders w) = Some (index, order) →
       result (update_order_status order_id status_val) w
       = Returned (with_status status_val order)
       ∧ orders (after (update_order_status order_id status_val) w)
         = <[index := with_status status_val order]> (orders w)).
Proof.
  split; [apply update_order_status_invalid|]. split.
  - intros Hvalid Hnot. apply update_order_status_not_found; [done|].
    by apply (find_index_key_None Order.id).
  - intros Hvalid index order Hfind. unfold result, after.
    by rewrite (update_order_status_found _ _ _ _ _ Hvalid Hfind).
Qed.

(** *** Accepted orders *)

Lemma debit_all_bump adjs item_id delta items :
  debit_all adjs (bump item_id delta items)
  = bump item_id delta (debit_all adjs items).
Proof.
  revert items. induction adjs as [|adj adjs IH]; intros items; [done|].
  unfold debit_all in *. simpl. by rewrite bump_comm, IH.
Qed.

Lemma credit_all_debit_all adjs items :
  credit_all adjs (debit_all adjs items) = items.
Proof.
  revert items. induction adjs as [|[adj_id adj_qty] adjs IH]; intros items; [done|].
  change (credit_all ((adj_id, adj_qty) :: adjs) ?l)
    with (credit_all adjs (bump adj_id adj_qty l)).
  change (debit_all ((adj_id, adj_qty) :: adjs) items)
    with (debit_all adjs (bump adj_id (- adj_qty) items)).
  rewrite debit_all_bump, bump_bump.
  replace (- adj_qty + adj_qty) with 0 by lia. by rewrite bump_zero.
Qed.



(** A run of the loop of [create_order] that goes through. *)
Lemma create_order_items_accepted order_id items :
  ∀ i total_price processed_items adjs w r w',
    Forall (λ line, 0 ≤ OrderItemBody.quantity line) items →
    debited adjs (inventory_items w) →
    create_order_items order_id i items total_price processed_items adjs w
      = (Returned r, w') →
    r.1 = lines_total total_price items
    ∧ stored_line <$> r.2
      = (stored_line <$> processed_items) ++ (requested_line order_id <$> items)
    ∧ order_item_adjustment <$> r.2
      = (order_item_adjustment <$> processed_items) ++ (line_adjustment <$> items)
    ∧ inventory_items w' = debit_all (line_adjustment <$> items) (inventory_items w)
    ∧ debited (adjs ++ (line_adjustment <$> items)) (inventory_items w')
    ∧ inventory_logs w'
      = inventory_logs w
          ++ (debit_entry order_id (clock w) <$> (line_adjustment <$> items))
    ∧ orders w' = orders w
    ∧ clock w' = clock w.
Proof.
  induction items as [|line rest IH];
    intros i total_price processed_items adjs w r w' Hqtys Hdebited Hrun.
  { injection Hrun as <- <-. simpl. by rewrite !app_nil_r. }
  apply Forall_cons in Hqtys as [Hqty Hqtys].
  rewrite create_order_items_step in Hrun.
  set (w0 := set_uuid_draws _ w) in Hrun.
  destruct (find_index (λ inv, InventoryItem.id inv = OrderItemBody.inventoryItemId line)
              (inventory_items w)) as [[inv_index inventory_item]|] eqn:Hfind;
    [|done].
  case_bool_decide as Hvariety; [done|].
  assert (find_index (λ inv, InventoryItem.id inv = OrderItemBody.inventoryItemId line)
            (inventory_items w0) = Some (inv_index, inventory_item)) as Hfind0 by done.
  destruct (Z_lt_le_dec (InventoryItem.trayCount inventory_item
                         + - OrderItemBody.quantity line) 0) as [Hneg|Hpos].
  { rewrite (adjust_inventory_negative _ _ _ _ _ _ _ Hfind0 Hneg) in Hrun.
    by destruct (revert_adjustments order_id adjs w0) as [[e|[]] w2]. }
  rewrite (adjust_inventory_ok _ _ _ _ _ _ _ Hfind0 Hpos) in Hrun.
  set (w1 := adjusted _ _ _ _ _ _ _) in Hrun.
  assert (inventory_items w1
          = bump (OrderItemBody.inventoryItemId line)
              (- OrderItemBody.quantity line) (inventory_items w)) as Hitems1.
  { subst w1. by rewrite (inventory_items_adjusted _ _ _ _ _ _ _ Hfind0). }
  assert (debited (adjs ++ [line_adjustment line]) (inventory_items w1)) as Hdebited'.
  { rewrite Hitems1. apply Forall_app. split.
    - by eapply debited_bump.
    - apply Forall_singleton. simpl. split; [done|].
      rewrite find_index_bump. simpl in Hfind. simpl. rewrite Hfind. simpl.
      rewrite decide_True by done. by eexists _, _. }
  destruct (IH _ _ _ _ _ _ _ Hqtys Hdebited' Hrun)
    as (Htotal & Hlines & Hadjs & Hitems & Hdeb & Hlogs & Horders & Hclock).
  split; [done|]. split.
  { rewrite Hlines, fmap_app, <-app_assoc. done. }
  split.
  { rewrite Hadjs, fmap_app, <-app_assoc. done. }
  split; [by rewrite Hitems, Hitems1|]. split.
  { by rewrite <-app_assoc in Hdeb. }
  split; [|done].
  rewrite Hlogs. subst w1. simpl. by rewrite <-app_assoc.
Qed.



Lemma restore_order_items_ok order_id order_items_list w :
  debited (order_item_adjustment <$> order_items_list) (inventory_items w) →
  inventory_items (after (restore_order_items order_id order_items_list) w)
  = credit_all (order_item_adjustment <$> order_items_list) (inventory_items w).
Proof.
  revert w. induction order_items_list as [|item_dict rest IH]; intros w Hdebited;
    [done|].
  apply Forall_cons in Hdebited as [(Hqty & index & item & Hfind & Hcount) Hrest].
  simpl in Hqty, Hfind.
  assert (0 ≤ InventoryItem.trayCount item + OrderItem.quantity item_dict)
    as Hpos by lia.
  unfold after. rewrite restore_order_items_cons. unfold after.
  rewrite (adjust_inventory_ok _ _ _ _ _ _ _ Hfind Hpos). cbn [snd].
  set (w1 := adjusted _ _ _ _ _ _ _).
  assert (inventory_items w1
          = bump (OrderItem.inventoryItemId item_dict) (OrderItem.quantity item_dict)
              (inventory_items w)) as Hitems1.
  { subst w1. by rewrite (inventory_items_adjusted _ _ _ _ _ _ _ Hfind). }
  specialize (IH w1). unfold after in IH. rewrite IH.
  - by rewrite Hitems1.
  - rewrite Hitems1. by eapply debited_bump.
Qed.

Lemma price_or_default_whole line :
  whole_price line →
  price_or_default (OrderItemBody.price_per_tray line)
  = inject_Z (Qnum (price_or_default (OrderItemBody.price_per_tray line))).
Proof.
  unfold whole_price, price_or_default.
  destruct (OrderItemBody.price_per_tray line) as [[n d]|]; [|done].
  simpl. intros [-> _]. by destruct (Qeq_bool _ _).
Qed.

Lemma lines_total_whole lines total_price :
  Forall whole_price lines →
  (lines_total total_price lines == total_price + inject_Z (whole_total lines))%Q.
Proof.
  revert total_price. induction lines as [|line lines IH]; intros total_price Hwhole.
  - unfold lines_total, whole_total. simpl. by rewrite Qplus_0_r.
  - apply Forall_cons in Hwhole as [Hline Hwhole].
    change (lines_total total_price (line :: lines))
      with (lines_total
              (total_price
               + inject_Z (OrderItemBody.quantity line)
                 * price_or_default (OrderItemBody.price_per_tray line))%Q lines).
    rewrite (IH _ Hwhole).
    change (whole_total (line :: lines))
      with (OrderItemBody.quantity line
            * Qnum (price_or_default (OrderItemBody.price_per_tray line))
            + whole_total lines).
    pose proof (price_or_default_whole line Hline) as Hprice.
    set (n := Qnum (price_or_default (OrderItemBody.price_per_tray line))) in *.
    clearbody n. rewrite Hprice, inject_Z_plus, inject_Z_mult. ring.
Qed.

(** Rounding to two decimals leaves a whole number as it is. *)
Lemma round_to_whole q n : (q == inject_Z n)%Q → (round_to 2 q == inject_Z n)%Q.
Proof.
  destruct q as [a b]. unfold Qeq, round_to, round_half_even. simpl.
  change (Z.pos (10 ^ 2)) with 100.
  rewrite Pos.mul_1_r, !Z.mul_1_r. intros ->.
  replace (n * Z.pos b * 100) with (n * 100 * Z.pos b) by lia.
  rewrite Z.div_mul, Z.mod_mul by done.
  destruct (Z.ltb_spec (2 * 0) (Z.pos b)); lia.
Qed.

(** X8.  What an accepted [create_order] leaves behind, for lines with
    non-negative quantities: the order is appended with the drawn id, the
    time of the call as order date and status pending, whatever the
    request said; its lines are the requested ones, in order, each with
    the price of the request or 10 when none (or zero) was given; the log
    receives one debit per line; and, the drawn id being new among the
    orders, [get_order_details] answers with that order.  For prices in
    whole units and a total below [2 ^ 53], where Python's float
    arithmetic is exact, the total price is the sum of quantity times
    price. *)
Theorem create_order_accepted w order_data order :
  Forall (λ line, 0 ≤ OrderItemBody.quantity line) (OrderBody.items order_data) →
  result (create_order order_data) w = Returned order →
  let order_id := uuid_of (uuid_draws w) in
  let lines := OrderBody.items order_data in
  let w' := after (create_order order_data) w in
  Order.id order = order_id
  ∧ Order.status order = "pending"
  ∧ Order.orderDate order = clock w
  ∧ stored_line <$> Order.items order = requested_line order_id <$> lines
  ∧ (Forall whole_price lines → whole_total lines < 2 ^ 53 →
     ∃ total, Order.total_price order = Some total
              ∧ (total == inject_Z (whole_total lines))%Q)
  ∧ orders w' = orders w ++ [order]
  ∧ inventory_logs w'
    = inventory_logs w ++ (debit_entry order_id (clock w) <$> (line_adjustment <$> lines))
  ∧ (order_id ∉ Order.id <$> orders w →
     get_order_details order_id w' = (Returned order, w')).
Proof.
  intros Hqtys Hrun order_id lines w'. subst w'.
  unfold result, after in *. rewrite create_order_run in *. fold order_id in Hrun |- *.
  set (w0 := set_uuid_draws (S (uuid_draws w)) w) in *.
  pose proof (create_order_items_accepted order_id lines 0 0%Q [] [] w0) as Haccepted.
  fold lines in Hrun |- *.
  destruct (create_order_items order_id 0 lines 0%Q [] [] w0) as [[e|r] w1];
    simpl in *; [done|].
  destruct (Haccepted r w1 Hqtys (Forall_nil_2 _) eq_refl)
    as (Htotal & Hlines & _ & _ & _ & Hlogs & Horders & _).
  injection Hrun as <-. simpl. rewrite Htotal, Horders.
  split; [done|]. split; [done|]. split; [done|]. split; [done|].
  split; [|split; [done|]; split; [done|]].
  - intros Hwhole _. eexists. split; [reflexivity|].
    apply round_to_whole. rewrite (lines_total_whole _ _ Hwhole). ring.
  - intros Hfresh. unfold get_order_details, bind, get. cbn [orders set_orders].
    by rewrite (find_index_key_snoc Order.id (orders w)
                  (Order.mk order_id _ _ _ _ _ _ _)).
Qed.

(** X9.  Placing an order and cancelling it puts the batches back.  For
    lines with non-negative quantities and a drawn order id that is new
    among the orders: when [create_order] accepts the request, the
    [cancel_order] of the new order succeeds, the batches are exactly
    those before the order was placed, and the order stays in the list,
    cancelled. *)
Theorem create_then_cancel_restores w order_data order :
  Forall (λ line, 0 ≤ OrderItemBody.quantity line) (OrderBody.items order_data) →
  uuid_of (uuid_draws w) ∉ Order.id <$> orders w →
  result (create_order order_data) w = Returned order →
  let w1 := after (create_order order_data) w in
  let w2 := after (cancel_order (Order.id order)) w1 in
  result (cancel_order (Order.id order)) w1 = Returned tt
  ∧ inventory_items w2 = inventory_items w
  ∧ orders w2 = orders w ++ [with_status "cancelled" order].
Proof.
  intros Hqtys Hfresh Hrun w1 w2.
  assert (Order.id order = uuid_of (uuid_draws w)
          ∧ Order.status order = "pending"
          ∧ orders w1 = orders w ++ [order]
          ∧ inventory_items w1
            = debit_all (order_item_adjustment <$> Order.items order)
                (inventory_items w)
          ∧ debited (order_item_adjustment <$> Order.items order)
              (inventory_items w1)) as (Hid & Hstatus & Horders & Hitems & Hdebited).
  { subst w1. unfold result, after in *. rewrite create_order_run in *.
    set (w0 := set_uuid_draws (S (uuid_draws w)) w) in *.
    pose proof (create_order_items_accepted (uuid_of (uuid_draws w))
                  (OrderBody.items order_data) 0 0%Q [] [] w0) as Haccepted.
    destruct (create_order_items _ _ _ _ _ _ w0) as [[e|r] w'];
      simpl in *; [done|].
    destruct (Haccepted r w' Hqtys (Forall_nil_2 _) eq_refl)
      as (_ & _ & Hadjs & Hitems & Hdebited & _ & Horders & _).
    injection Hrun as <-. simpl. by rewrite Hadjs, Horders. }
  assert (find_index (λ o, Order.id o = Order.id order) (orders w1)
          = Some (length (orders w), order)) as Hfind.
  { rewrite Horders. apply (find_index_key_snoc Order.id). by rewrite Hid. }
  pose proof (update_order_status_found w1 (Order.id order) "cancelled" _ _
                cancelled_is_valid Hfind) as Hupdate.
  rewrite bool_decide_true in Hupdate by (by rewrite Hstatus).
  split; [|split].
  - unfold result, cancel_order, try_except, bind. by rewrite Hupdate.
  - subst w2. rewrite cancel_order_after. unfold after at 1. rewrite Hupdate.
    cbn [snd inventory_items set_orders].
    rewrite (restore_order_items_ok _ _ _ Hdebited), Hitems.
    apply credit_all_debit_all.
  - subst w2. rewrite cancel_order_after. unfold after at 1. rewrite Hupdate.
    cbn [snd orders set_orders]. rewrite Horders.
    rewrite (insert_app_r_alt _ _ (length (orders w))) by done.
    by rewrite Nat.sub_diag.
Qed.

(** *** Notifications *)

Lemma filter_all {A} (P : A → Prop) `{∀ x, Decision (P x)} (l : list A) :
  Forall P l → filter P l = l.
Proof.
  induction 1 as [|x l Hx Hl IH]; [done|].
  by rewrite filter_cons_True, IH.
Qed.

Lemma unread_of_mark_read (l : list Notification.t) index notif :
  NoDup (Notification.id <$> l) →
  l !! index = Some notif →
  unread_of (<[index := with_is_read true notif]> l)
  = filter (λ n, Notification.id n ≠ Notification.id notif) (unread_of l).
Proof.
  unfold unread_of. revert index.
  induction l as [|x l IH]; intros [|index] Hnd Hlookup; simplify_eq/=.
  - apply NoDup_cons in Hnd as [Hx Hnd].
    rewrite filter_cons_False by done.
    assert (Forall (λ n, Notification.id n ≠ Notification.id notif)
              (filter (λ n, Notification.is_read n = false) l)) as Hothers.
    { apply Forall_forall. intros n [_ Hin]%list_elem_of_filter Heq.
      apply Hx, list_elem_of_fmap. by exists n. }
    destruct (decide (Notification.is_read notif = false)).
    + rewrite (filter_cons_True _ notif) by done.
      rewrite filter_cons_False by (intros Hsame; by apply Hsame).
      by rewrite (filter_all (λ n, Notification.id n ≠ Notification.id notif)).
    + rewrite (filter_cons_False _ notif) by done.
      by rewrite (filter_all (λ n, Notification.id n ≠ Notification.id notif)).
  - apply NoDup_cons in Hnd as [Hx Hnd].
    assert (Notification.id x ≠ Notification.id notif) as Hne.
    { intros Heq. apply Hx, list_elem_of_fmap. exists notif. split; [done|].
      by eapply list_elem_of_lookup_2. }
    destruct (decide (Notification.is_read x = false)).
    + rewrite !(filter_cons_True _ x) by done. f_equal. by apply IH.
    + rewrite !(filter_cons_False _ x) by done. by apply IH.
Qed.

(** X10.  [mark_notification_read] answers 404 and changes nothing when
    no notification has the id.  Otherwise the first notification with the
    id is flagged read and returned, the others and every other part of
    the store staying as they were; doing it again returns the same
    notification and changes nothing; and, the ids being distinct, the
    unread listing afterwards is the one before without that
    notification. *)
Theorem mark_notification_read_effect w notification_id :
  (notification_id ∉ Notification.id <$> notifications w →
   mark_notification_read notification_id w
   = (Raised (mkHTTPException 404 "Notification not found"), w))
  ∧ (∀ index notif,
       find_index (λ n, Notification.id n = notification_id) (notifications w)
         = Some (index, notif) →
       let w' := after (mark_notification_read notification_id) w in
       mark_notification_read notification_id w
       = (Returned (with_is_read true notif),
          set_notifications
            (<[index := with_is_read true notif]> (notifications w)) w)
       ∧ mark_notification_read notification_id w'
         = (Returned (with_is_read true notif), w')
       ∧ (NoDup (Notification.id <$> notifications w) →
          get_notifications (Some true) w'
          = (Returned (filter (λ n, Notification.id n ≠ notification_id)
                         (unread_of (notifications w))), w'))).
Proof.
  split.
  - intros Hnot. unfold mark_notification_read, bind, get.
    by rewrite (find_index_key_None Notification.id _ _ Hnot).
  - intros index notif Hfind w'.
    pose proof Hfind as [Hlookup Hid]%find_index_lookup.
    assert (mark_notification_read notification_id w
            = (Returned (with_is_read true notif),
               set_notifications
                 (<[index := with_is_read true notif]> (notifications w)) w))
      as Hrun.
    { unfold mark_notification_read, bind, get. rewrite Hfind.
      unfold modify, ret. by rewrite (alter_lookup_insert _ _ _ _ Hlookup). }
    subst w'. unfold after. rewrite Hrun. cbn [snd].
    split; [done|]. split.
    + set (w1 := set_notifications _ w).
      assert (find_index (λ n, Notification.id n = notification_id) (notifications w1)
              = Some (index, with_is_read true notif)) as Hfind1.
      { subst w1. cbn [notifications set_notifications]. simpl in Hfind. simpl.
        rewrite (list_find_insert_same_key Notification.id notification_id
                   _ _ notif) by done.
        rewrite Hfind. simpl. by rewrite decide_True. }
      unfold mark_notification_read, bind, get. rewrite Hfind1.
      unfold modify, ret. f_equal.
      pose proof Hfind1 as [Hlookup1 _]%find_index_lookup.
      rewrite (alter_lookup_insert _ _ _ _ Hlookup1).
      rewrite list_insert_id by done.
      unfold set_notifications. apply world_eta.
    + intros Hnd. unfold get_notifications, bind, get, ret.
      cbn [default notifications set_notifications].
      fold (unread_of (<[index := with_is_read true notif]> (notifications w))).
      by rewrite (unread_of_mark_read _ _ _ Hnd Hlookup), Hid.
Qed.

(** X11.  [create_notification] always succeeds.  The notification is
    appended unread, with a drawn id and the time of the call, so that it
    comes last in the unread listing; the e-mail task is enqueued for the
    type alert and for no other type; and the ledger and the orders are
    not touched. *)
Theorem create_notification_effect w notification_data :
  let new_notif :=
    Notification.mk (uuid_of (uuid_draws w))
      (NotificationCreate.message notification_data)
      (NotificationCreate.type notification_data) (clock w) false in
  let w' := after (create_notification notification_data) w in
  result (create_notification notification_data) w = Returned new_notif
  ∧ notifications w' = notifications w ++ [new_notif]
  ∧ get_notifications (Some true) w'
    = (Returned (unread_of (notifications w) ++ [new_notif]), w')
  ∧ email_calls w'
    = email_calls w
        ++ (if decide (NotificationCreate.type notification_data = "alert")
            then [("Alert: " +:+ NotificationCreate.message notification_data,
                   NotificationCreate.message notification_data)]
            else [])
  ∧ ledger w' = ledger w
  ∧ orders w' = orders w.
Proof.
  intros new_notif w'. subst w'.
  unfold result, after, create_notification, bind, uuid4, now, modify, ret.
  cbn [fst snd clock set_uuid_draws]. fold new_notif.
  unfold get_notifications, bind, get, ret. cbn [default].
  case_bool_decide; unfold send_email_notification, modify; simpl;
    rewrite ?decide_True, ?decide_False by done;
    rewrite ?app_nil_r; repeat split; try done;
    fold (unread_of (notifications w ++ [new_notif]));
    unfold unread_of; rewrite filter_app; do 2 f_equal.
Qed.

(** *** Plantings *)

Lemma max_default_ge d l x : x ∈ l → x ≤ max_default d l.
Proof.
  destruct l as [|y l]; [by intros ?%elem_of_nil|]. simpl.
  assert (∀ l a, a ≤ foldl Z.max a l ∧ ∀ x, x ∈ l → x ≤ foldl Z.max a l) as Hfold.
  { clear. induction l as [|z l IH]; intros a; simpl.
    - split; [lia|]. by intros x ?%elem_of_nil.
    - destruct (IH (Z.max a z)) as [Hacc Hall]. split; [lia|].
      intros x [->|Hin]%elem_of_cons; [lia|by apply Hall]. }
  destruct (Hfold l y) as [Hacc Hall].
  intros [->|Hin]%elem_of_cons; [done|by apply Hall].
Qed.

(** X12.  [create_planting] answers 404, adding nothing, for a variety id
    outside 1..7.  For the seven varieties it stops with [OverflowError],
    adding nothing, when the plant date plus the grow cycle of the variety,
    or the day before now, is no datetime of the years 1 to 9999;
    otherwise it succeeds and appends the planting it returns.  The id it
    gives is above every id in the list, so distinct ids stay distinct;
    the expected harvest is the plant date plus the grow cycle; and the
    status is ready when that date is reached, else growing when the plant
    date lies more than a day back, else planted. *)
Theorem create_planting_effect now_ planting_data plantings :
  let variety_id := PlantingCreate.variety_id planting_data in
  let plant_date := PlantingCreate.plant_date planting_data in
  (variety_id < 1 ∨ 7 < variety_id →
   create_planting now_ planting_data plantings
   = (Ended (Raised (mkHTTPException 404 "Variety not found")), plantings))
  ∧ (1 ≤ variety_id ≤ 7 →
     ∃ variety, variety ∈ varieties ∧ CropVariety.id variety = variety_id)
  ∧ (∀ variety,
       variety ∈ varieties → CropVariety.id variety = variety_id →
       let expected := plant_date + days (CropVariety.grow_cycle_days variety) in
       (¬ in_datetime_range expected ∨ ¬ in_datetime_range (now_ - days 1) →
        create_planting now_ planting_data plantings
        = (Stopped OverflowError, plantings))
       ∧ (in_datetime_range expected → in_datetime_range (now_ - days 1) →
          ∃ p,
            create_planting now_ planting_data plantings
            = (Ended (Returned p), plantings ++ [p])
            ∧ TrayPlanting.variety_id p = variety_id
            ∧ TrayPlanting.plant_date p = plant_date
            ∧ TrayPlanting.tray_count p = PlantingCreate.tray_count planting_data
            ∧ TrayPlanting.expected_harvest_date p = expected
            ∧ Forall (λ q, TrayPlanting.id q < TrayPlanting.id p) plantings
            ∧ (NoDup (TrayPlanting.id <$> plantings) →
               NoDup (TrayPlanting.id <$> plantings ++ [p]))
            ∧ (TrayPlanting.status p = "ready" ↔ expected ≤ now_)
            ∧ (TrayPlanting.status p = "growing"
               ↔ now_ < expected ∧ plant_date < now_ - days 1)
            ∧ (TrayPlanting.status p = "planted"
               ↔ now_ < expected ∧ now_ - days 1 ≤ plant_date))).
Proof.
  intros variety_id plant_date. split; [|split].
  - intros Hout. unfold create_planting. fold variety_id.
    assert (find_index (λ v, CropVariety.id v = variety_id) varieties = None)
      as ->; [|done].
    unfold find_index. apply list_find_None. unfold varieties.
    repeat (apply Forall_cons; split; [simpl; lia|]). apply Forall_nil_2.
  - intros Hin.
    assert (variety_id = 1 ∨ variety_id = 2 ∨ variety_id = 3 ∨ variety_id = 4
            ∨ variety_id = 5 ∨ variety_id = 6 ∨ variety_id = 7) as Hcases by lia.
    exists (default (CropVariety.mk 0 "" 0 0%Q)
              (varieties !! Z.to_nat (variety_id - 1))).
    destruct Hcases as [Heq|[Heq|[Heq|[Heq|[Heq|[Heq|Heq]]]]]]; rewrite Heq;
      (split; [|reflexivity]); unfold varieties; simpl;
      repeat first [apply list_elem_of_here|apply list_elem_of_further].
  - intros variety Hmem Hvid.
    assert (∃ index,
              find_index (λ v, CropVariety.id v = variety_id) varieties
                = Some (index, variety)
              ∧ Z.abs (CropVariety.grow_cycle_days variety) ≤ timedelta_max_days)
      as (index & Hfind & Hcycle).
    { unfold varieties in Hmem.
      repeat (apply elem_of_cons in Hmem as [->|Hmem]);
        [..|by apply elem_of_nil in Hmem];
        simpl in Hvid; rewrite <-Hvid; eexists; (split; [reflexivity|by vm_compute]). }
    cbv zeta.
    set (expected := plant_date + days (CropVariety.grow_cycle_days variety)).
    assert (Z.abs 1 ≤ timedelta_max_days) as Hone by (by vm_compute).
    unfold create_planting. fold variety_id plant_date. rewrite Hfind.
    unfold datetime_plus_days, datetime_minus_days. fold expected. split.
    + intros [Hexpected|Hday].
      * rewrite bool_decide_false; [done|]. by intros [_ ?].
      * case_bool_decide; [|done]. rewrite bool_decide_false; [done|]. by intros [_ ?].
    + intros Hexpected Hday. rewrite !bool_decide_true by done.
      set (new_id := max_default 0 (TrayPlanting.id <$> plantings) + 1).
      eexists. split; [reflexivity|]. cbn [TrayPlanting.id
        TrayPlanting.variety_id TrayPlanting.plant_date TrayPlanting.tray_count
        TrayPlanting.expected_harvest_date TrayPlanting.status].
      assert (Forall (λ q, TrayPlanting.id q < new_id) plantings) as Hbelow.
      { apply Forall_forall. intros q Hq.
        assert (TrayPlanting.id q ≤ max_default 0 (TrayPlanting.id <$> plantings))
          as Hle; [|subst new_id; lia].
        apply max_default_ge, list_elem_of_fmap. by exists q. }
      repeat (split; [done|]). split; [|split; [|split]].
      * intros Hnd. rewrite fmap_app. apply NoDup_app. split; [done|].
        split; [|apply NoDup_singleton].
        intros x (q & -> & Hq)%list_elem_of_fmap Heq%list_elem_of_singleton.
        pose proof (proj1 (Forall_forall _ _) Hbelow q Hq) as Hlt.
        simpl in Hlt, Heq. lia.
      * repeat case_bool_decide; split; (done || lia || (intros; lia)).
      * repeat case_bool_decide; split; (done || lia || (intros [? ?]; lia)).
      * repeat case_bool_decide; split; (done || lia || (intros [? ?]; lia)).
Qed.

Lemma mark_ready_later now_ now' p :
  now_ ≤ now' → mark_ready now' (mark_ready now_ p) = mark_ready now' p.
Proof.
  intros Hle. unfold mark_ready.
  repeat (case_bool_decide; simpl in *); try done; destruct_and?; try lia;
    try congruence.
  exfalso. naive_solver lia.
Qed.

(** X13.  [get_plantings] turns into ready every planting that is growing
    and whose expected harvest date is reached, and nothing else: ids,
    varieties, dates and tray counts are those before, a planting that is
    not growing or not yet due stays as it is, and no growing planting that
    is due is left.  Asking again at the same or at a later time gives
    what asking once at that later time gives. *)
Theorem get_plantings_effect now_ plantings :
  let ps := get_plantings now_ plantings in
  (λ p, (TrayPlanting.id p, TrayPlanting.variety_id p, TrayPlanting.plant_date p,
         TrayPlanting.expected_harvest_date p, TrayPlanting.tray_count p)) <$> ps
  = (λ p, (TrayPlanting.id p, TrayPlanting.variety_id p, TrayPlanting.plant_date p,
           TrayPlanting.expected_harvest_date p, TrayPlanting.tray_count p))
      <$> plantings
  ∧ (∀ i p, plantings !! i = Some p →
            (TrayPlanting.status p ≠ "growing"
             ∨ now_ < TrayPlanting.expected_harvest_date p → ps !! i = Some p)
            ∧ (TrayPlanting.status p = "growing"
               ∧ TrayPlanting.expected_harvest_date p ≤ now_ →
               ps !! i = Some (with_planting_status "ready" p)))
  ∧ Forall (λ p, ¬ (TrayPlanting.status p = "growing"
                    ∧ TrayPlanting.expected_harvest_date p ≤ now_)) ps
  ∧ (∀ now', now_ ≤ now' → get_plantings now' ps = get_plantings now' plantings).
Proof.
  intros ps. subst ps. unfold get_plantings. split; [|split; [|split]].
  - rewrite <-list_fmap_compose. apply list_fmap_ext. intros i p _. simpl.
    unfold mark_ready. by case_bool_decide.
  - intros i p Hp. rewrite list_lookup_fmap, Hp. simpl. unfold mark_ready. split.
    + intros Hkeep. rewrite bool_decide_false; [done|]. intros [? ?].
      destruct Hkeep; [done|lia].
    + intros Hdue. by rewrite bool_decide_true.
  - apply Forall_fmap, Forall_forall. intros p _. simpl. unfold mark_ready.
    case_bool_decide; simpl; [by intros [? _]|done].
  - intros now' Hle. rewrite <-list_fmap_compose. apply list_fmap_ext.
    intros i p _. simpl. by apply mark_ready_later.
Qed.

(** *** The forecast cache, whatever the oracle does *)

Lemma fallback_predictions_window start_date weeks ys :
  Forall (λ p, start_date ≤ ForecastPoint.date p ≤ start_date + 7 * weeks)
    (fallback_predictions start_date weeks ys).
Proof.
  unfold fallback_predictions. apply Forall_fmap, Forall_forall.
  intros i Hi%elem_of_seqZ. simpl. lia.
Qed.

Lemma fallback_predictions_nonempty start_date weeks ys :
  0 < weeks → fallback_predictions start_date weeks ys ≠ [].
Proof.
  intros Hweeks Hnil. apply (f_equal length) in Hnil.
  unfold fallback_predictions in Hnil. rewrite length_fmap, length_seqZ in Hnil.
  simpl in Hnil. lia.
Qed.

Lemma forecast_predictions_window start_date weeks df :
  let predictions :=
    forecast_predictions start_date (start_date + 7 * weeks) weeks df in
  Forall (λ p, start_date ≤ ForecastPoint.date p ≤ start_date + 7 * weeks)
    predictions
  ∧ (0 < weeks → predictions ≠ []).
Proof.
  unfold forecast_predictions. cbv zeta.
  set (fallback := fallback_predictions start_date weeks (snd <$> df)).
  assert (Forall (λ p, start_date ≤ ForecastPoint.date p ≤ start_date + 7 * weeks)
            fallback
          ∧ (0 < weeks → fallback ≠ [])) as Hfallback.
  { split; [apply fallback_predictions_window|apply fallback_predictions_nonempty]. }
  case_bool_decide; [|done].
  destruct (prophet df (weeks * 7)) as [forecast_df|]; [|done].
  destruct (filter _ forecast_df) as [|row rows] eqn:Hwindow; [done|].
  assert (Forall (λ r : Z * Q, start_date ≤ r.1 ≤ start_date + 7 * weeks)
            (row :: rows)) as Hrows.
  { rewrite <-Hwindow. apply Forall_forall.
    by intros r [Hin _]%list_elem_of_filter. }
  split; [|done].
  change (Forall (λ p, start_date ≤ ForecastPoint.date p ≤ start_date + 7 * weeks)
            ((λ r : Z * Q, ForecastPoint.mk r.1 (round_to 1 r.2)) <$> row :: rows)).
  by apply Forall_fmap.
Qed.

(** X14.  [get_demand_forecast] stops with [OverflowError], the store and
    its cache left as they were, when today plus [weeks] weeks is no date
    of the years 1 to 9999.  Otherwise it returns a forecast, whatever the
    oracle does and whatever the sign of [weeks] (the clock and the start
    of the 60 days of history being datetimes of that range).  The
    forecast it returns is the one found in the cache under (today, weeks)
    afterwards, the other cache entries, the ledger, the orders and the
    alerts staying as they were; an immediate second call returns the same
    forecast and changes nothing.  A forecast computed on a miss spans
    today to today plus [weeks] weeks, every predicted date lies in that
    span, and for a positive [weeks] it has at least one prediction. *)
Theorem get_demand_forecast_caches w weeks :
  let today := date_of (clock w) in
  let w' := (get_demand_forecast weeks w).2 in
  in_datetime_range (clock w) →
  in_datetime_range (clock w - days 60) →
  (¬ in_date_range (today + 7 * weeks) →
   get_demand_forecast weeks w = (Stopped OverflowError, w))
  ∧ (in_date_range (today + 7 * weeks) →
     ∃ forecast,
       (get_demand_forecast weeks w).1 = Ended (Returned forecast)
       ∧ forecasts_cache w' !! (today, weeks) = Some forecast
       ∧ get_demand_forecast weeks w' = (Ended (Returned forecast), w')
       ∧ (∀ key, key ≠ (today, weeks) →
                 forecasts_cache w' !! key = forecasts_cache w !! key)
       ∧ ledger w' = ledger w
       ∧ orders w' = orders w
       ∧ notifications w' = notifications w
       ∧ (forecasts_cache w !! (today, weeks) = None →
          Forecast.periodStart forecast = today
          ∧ Forecast.periodEnd forecast = today + 7 * weeks
          ∧ Forall (λ p, today ≤ ForecastPoint.date p ≤ today + 7 * weeks)
                   (Forecast.predictions forecast)
          ∧ (0 < weeks → Forecast.predictions forecast ≠ []))).
Proof.
  intros today w' Hclock Hstart. subst w'.
  split; [apply get_demand_forecast_overflow|].
  intros Hend.
  assert (is_Some (date_plus_days today (7 * weeks))) as Hsome.
  { rewrite date_plus_days_in_range; [done| |done].
    by apply in_date_range_date_of. }
  destruct (forecasts_cache w !! (today, weeks)) as [cached|] eqn:Hcache.
  - exists cached. rewrite (get_demand_forecast_hit _ _ _ Hsome Hcache). simpl.
    rewrite (get_demand_forecast_hit _ _ _ Hsome Hcache). by repeat split.
  - rewrite (get_demand_forecast_miss w weeks Hclock Hstart Hend Hcache).
    fold today. cbn [fst snd].
    destruct (forecast_predictions_window today weeks (demand_frame w))
      as [Hspan Hnonempty].
    eexists. split; [reflexivity|]. cbn [forecasts_cache set_forecasts_cache].
    split; [apply lookup_insert_eq|]. split.
    { apply get_demand_forecast_hit; cbn [clock forecasts_cache set_forecasts_cache].
      - done.
      - apply lookup_insert_eq. }
    split; [by intros key Hkey; rewrite lookup_insert_ne|].
    by repeat split.
Qed.

(** *** Historical sales *)

Lemma sumZ_perm l k : l ≡ₚ k → sumZ l = sumZ k.
Proof. unfold sumZ. induction 1; simpl; lia. Qed.

Lemma sumZ_cons x l : sumZ (x :: l) = x + sumZ l.
Proof. done. Qed.

Lemma map_total_add (m : gmap Z Z) k x :
  map_total (<[k := default 0 (m !! k) + x]> m) = map_total m + x.
Proof.
  unfold map_total. destruct (m !! k) as [v|] eqn:Hk; simpl.
  - rewrite <-(insert_delete_eq m).
    rewrite (sumZ_perm _ _ (fmap_Permutation snd _ _
               (map_to_list_insert (delete k m) k (v + x) (lookup_delete_eq m k)))).
    rewrite <-(sumZ_perm _ _ (fmap_Permutation snd _ _
                 (map_to_list_delete m k v Hk))).
    rewrite !fmap_cons, !sumZ_cons. cbn [snd]. lia.
  - rewrite (sumZ_perm _ _ (fmap_Permutation snd _ _
               (map_to_list_insert m k (0 + x) Hk))).
    rewrite fmap_cons, sumZ_cons. cbn [snd]. lia.
Qed.

Lemma add_sale_counted sales_by_date o days_back w :
  add_sale sales_by_date o (clock w - days days_back) (clock w)
  = if decide (counted_sale days_back w o) then
      <[date_of (Order.orderDate o) :=
          default 0 (sales_by_date !! date_of (Order.orderDate o))
          + trays_in_order o]> sales_by_date
    else sales_by_date.
Proof.
  unfold add_sale. fold (trays_in_order o). case_decide as Hcounted.
  - destruct Hcounted as (Hstatus & Hfrom & Hto). by rewrite !bool_decide_true.
  - case_bool_decide as Hstatus; [|done]. case_bool_decide as Hwindow; [|done].
    destruct Hcounted. unfold counted_sale. by destruct Hwindow.
Qed.

Lemma sales_by_date_total days_back w l (acc : gmap Z Z) :
  map_total (foldl (λ acc o, add_sale acc o (clock w - days days_back) (clock w))
               acc l)
  = map_total acc + sumZ (trays_in_order <$> filter (counted_sale days_back w) l).
Proof.
  revert acc. induction l as [|o l IH]; intros acc; simpl; [lia|].
  rewrite IH, add_sale_counted, filter_cons.
  case_decide; [rewrite fmap_cons, sumZ_cons, map_total_add|]; lia.
Qed.

Lemma sales_by_date_days days_back w l (acc : gmap Z Z) d :
  is_Some (foldl (λ acc o, add_sale acc o (clock w - days days_back) (clock w))
             acc l !! d)
  ↔ is_Some (acc !! d)
    ∨ ∃ o, o ∈ l ∧ counted_sale days_back w o ∧ date_of (Order.orderDate o) = d.
Proof.
  revert acc. induction l as [|o l IH]; intros acc; simpl.
  - split; [by left|]. intros [?|(o & ?%elem_of_nil & _)]; done.
  - rewrite IH, add_sale_counted. case_decide as Hcounted.
    + rewrite lookup_insert_is_Some'. split.
      * intros [[Heq|?]|(o' & Hin & Hc & Hd)]; [right|by left|right].
        -- exists o. split; [left|done].
        -- exists o'. split; [by right|done].
      * intros [?|(o' & [Heq|Hin]%elem_of_cons & Hc & Hd)].
        -- left. by right.
        -- left. left. by rewrite <-Heq.
        -- right. by exists o'.
    + split.
      * intros [?|(o' & Hin & Hc & Hd)]; [by left|right].
        exists o'. split; [by right|done].
      * intros [?|(o' & [Heq|Hin]%elem_of_cons & Hc & Hd)];
          [by left|by rewrite Heq in Hc|right].
        by exists o'.
Qed.

Lemma by_day_sorted_distinct (l : list (Z * Z)) :
  StronglySorted by_day l → NoDup l.*1 → StronglySorted Z.lt l.*1.
Proof.
  induction 1 as [|x l Hsorted IH Hall]; intros Hnd; simpl; [constructor|].
  apply NoDup_cons in Hnd as [Hx Hnd]. constructor; [by apply IH|].
  apply Forall_fmap, Forall_forall. intros y Hy. simpl.
  pose proof (proj1 (Forall_forall _ _) Hall y Hy) as Hle. unfold by_day in Hle.
  assert (x.1 ≠ y.1); [|lia].
  intros Heq. apply Hx, list_elem_of_fmap. by exists y.
Qed.

(** X15.  [get_historical_sales] stops with [OverflowError] when now
    minus [days] days is no datetime of the years 1 to 9999.  Otherwise it
    returns its records, one per day, by ascending date.  A day has a
    record exactly when a completed order dated within the window of
    [days] days up to now falls on it, and the trays of all records add up
    to the trays of all those orders: orders in another status, or dated
    outside the window, count for nothing. *)
Theorem get_historical_sales_totals days_back w :
  in_datetime_range (clock w) →
  (¬ in_datetime_range (clock w - days days_back) →
   get_historical_sales days_back w = Stopped OverflowError)
  ∧ (in_datetime_range (clock w - days days_back) →
     ∃ records,
       get_historical_sales days_back w = Ended (Returned records)
       ∧ StronglySorted Z.lt (SalesRecord.date <$> records)
       ∧ (∀ d, d ∈ SalesRecord.date <$> records
               ↔ ∃ o, o ∈ orders w ∧ counted_sale days_back w o
                      ∧ date_of (Order.orderDate o) = d)
       ∧ sumZ (SalesRecord.totalTraysSold <$> records)
         = sumZ (trays_in_order <$> filter (counted_sale days_back w) (orders w))).
Proof.
  intros Hclock. split.
  { intros Hout. unfold get_historical_sales. cbv zeta.
    by rewrite datetime_minus_days_out_of_range. }
  intros Hstart. rewrite (get_historical_sales_in_range _ _ Hclock Hstart).
  eexists. split; [reflexivity|]. unfold sales_between.
  set (sales_by_date := foldl _ ∅ (orders w)).
  set (sorted := merge_sort by_day (map_to_list sales_by_date)).
  assert (sorted ≡ₚ map_to_list sales_by_date) as Hperm
    by apply merge_sort_Permutation.
  assert (SalesRecord.date
            <$> ((λ dc : Z * Z, SalesRecord.mk (SalesRecord_id settings) dc.1 dc.2 None)
                   <$> sorted) = sorted.*1) as ->.
  { rewrite <-list_fmap_compose. by apply list_fmap_ext. }
  assert (SalesRecord.totalTraysSold
            <$> ((λ dc : Z * Z, SalesRecord.mk (SalesRecord_id settings) dc.1 dc.2 None)
                   <$> sorted) = sorted.*2) as ->.
  { rewrite <-list_fmap_compose. by apply list_fmap_ext. }
  split; [|split].
  - apply by_day_sorted_distinct.
    + apply StronglySorted_merge_sort.
      * intros a b c. unfold by_day. lia.
      * intros a b. unfold by_day. lia.
    + rewrite Hperm. apply NoDup_fst_map_to_list.
  - intros d. rewrite Hperm.
    transitivity (is_Some (sales_by_date !! d)).
    + rewrite list_elem_of_fmap. split.
      * intros ([d' v] & -> & Hin). apply elem_of_map_to_list in Hin. by exists v.
      * intros [v Hv]. exists (d, v). split; [done|]. by apply elem_of_map_to_list.
    + subst sales_by_date. rewrite sales_by_date_days. rewrite lookup_empty.
      split; [intros [[? [=]]|?]; done|by right].
  - rewrite (sumZ_perm _ _ (fmap_Permutation snd _ _ Hperm)).
    fold (map_total sales_by_date). subst sales_by_date.
    rewrite sales_by_date_total. unfold map_total.
    by rewrite map_to_list_empty.
Qed.

(** X17.  An applied adjustment can be read back: right after it,
    [get_inventory_item] answers with the batch at its new count, and
    [get_inventory_item_logs] with the entries the batch had before
    followed by the entry of this adjustment. *)
Theorem adjust_inventory_read_back w item_id change reason user_id index item :
  find_index (λ item, InventoryItem.id item = item_id) (inventory_items w)
    = Some (index, item) →
  0 ≤ InventoryItem.trayCount item + change →
  let w' := after (adjust_inventory item_id change reason user_id) w in
  get_inventory_item item_id w'
  = (Returned (with_trayCount (InventoryItem.trayCount item + change) item), w')
  ∧ get_inventory_item_logs item_id w'
    = (Returned
         (filter (λ log, InventoryLog.itemId log = item_id) (inventory_logs w)
          ++ [InventoryLog.mk (InventoryLog_id settings) item_id change reason
                (clock w) user_id]), w').
Proof.
  intros Hfind Hpos w'. subst w'. unfold after.
  rewrite (adjust_inventory_ok _ _ _ _ _ _ _ Hfind Hpos). cbn [snd].
  set (w' := adjusted _ _ _ _ _ _ _).
  pose proof Hfind as [Hlookup Hid]%find_index_lookup.
  assert (find_index (λ item, InventoryItem.id item = item_id) (inventory_items w')
          = Some (index, with_trayCount (InventoryItem.trayCount item + change) item))
    as Hfind'.
  { subst w'. cbn [inventory_items adjusted]. simpl in Hfind. simpl.
    rewrite (list_find_insert_same_key InventoryItem.id item_id _ _ item) by done.
    rewrite Hfind. simpl. by rewrite decide_True. }
  split.
  - unfold get_inventory_item, bind, get. by rewrite Hfind'.
  - rewrite get_inventory_item_logs_found.
    + subst w'. cbn [inventory_logs adjusted]. rewrite filter_app.
      by rewrite filter_cons_True, filter_nil.
    + apply find_index_lookup in Hfind' as [Hlookup' Hid'].
      apply list_elem_of_fmap. eexists. split; [symmetry; exact Hid'|].
      by eapply list_elem_of_lookup_2.
Qed.

End Portal.

(** ** The forecast cache, for any two oracles *)

(** C8 (as amended).  The horizon must keep today plus [weeks] weeks a
    date of the years 1 to 9999: beyond, [get_demand_forecast] stops with
    [OverflowError] and stores nothing.  Within, on a cache miss, when
    fewer than two daily totals exist, or the oracle raises, or none of its
    rows falls in the period, [get_demand_forecast] returns one prediction
    per day for the days [today, today + 7 * weeks), all carrying one
    constant: the mean of the daily totals (zero without history) rounded
    to one decimal place.  With fewer than two totals the rounding changes
    nothing.  The result is stored, and any later call for the same day
    and horizon returns it from the cache, store untouched, whatever the
    oracle and whatever else in the store has changed.  (The clock and the
    start of the 60 days of history are datetimes of the range.) *)
Theorem get_demand_forecast_fallback settings prophet prophet' w weeks :
  let today := date_of (clock w) in
  let df := demand_frame settings w in
  let constant := round_to 1 (mean_or_zero (snd <$> df)) in
  let run := get_demand_forecast settings prophet weeks w in
  in_datetime_range (clock w) →
  in_datetime_range (clock w - days 60) →
  (¬ in_date_range (today + 7 * weeks) → run = (Stopped OverflowError, w))
  ∧ (in_date_range (today + 7 * weeks) →
     forecasts_cache w !! (today, weeks) = None →
     (length df < 2)%nat
     ∨ prophet df (weeks * 7) = None
     ∨ (∃ forecast_df, prophet df (weeks * 7) = Some forecast_df
                       ∧ in_window today (today + 7 * weeks) forecast_df = []) →
     ∃ forecast,
       run.1 = Ended (Returned forecast)
       ∧ Forecast.periodStart forecast = today
       ∧ Forecast.periodEnd forecast = today + 7 * weeks
       ∧ ForecastPoint.date <$> Forecast.predictions forecast = seqZ today (weeks * 7)
       ∧ Forall (λ p, ForecastPoint.predictedTrays p = constant)
                (Forecast.predictions forecast)
       ∧ ((length df < 2)%nat → (constant == mean_or_zero (snd <$> df))%Q)
       ∧ (df = [] → (constant == 0)%Q)
       ∧ ∀ w2,
           forecasts_cache w2 = forecasts_cache run.2 →
           date_of (clock w2) = today →
           get_demand_forecast settings prophet' weeks w2
           = (Ended (Returned forecast), w2)).
Proof.
  intros today df constant run Hclock Hstart. subst run.
  split; [apply get_demand_forecast_overflow|].
  intros Hend Hmiss Hfallback.
  rewrite (get_demand_forecast_miss settings prophet w weeks Hclock Hstart Hend Hmiss).
  fold today. fold df.
  rewrite (forecast_predictions_fallback prophet _ _ _ _ Hfallback).
  eexists. cbn [fst snd].
  split; [done|]. split; [done|]. split; [done|].
  split; [apply fallback_predictions_dates|].
  split; [apply fallback_predictions_constant|].
  split; [|split].
  - intros Hshort. apply round_mean_short. by rewrite length_fmap.
  - intros Hempty. apply round_mean_short; rewrite Hempty; [simpl; lia|done].
  - intros w2 Hcache Hday. apply get_demand_forecast_hit.
    + rewrite Hday, date_plus_days_in_range; [done| |done].
      by apply in_date_range_date_of.
    + rewrite Hcache, Hday. apply lookup_insert_eq.
Qed.

(** ** The endpoints on the example stores *)

(** C1.  Creating a batch of three trays in the empty store: the request
    is accepted, the stored (and returned) batch holds six trays, and the
    log holds one entry, of three; the conservation law fails on the store
    that results. *)
Theorem create_inventory_item_double_count :
  let create_item := create_inventory_item example_settings example_uuid in
  let w' := after (create_item (kale_request 3)) empty_store in
  InventoryItem.trayCount <$> inventory_items w' = [6]
  ∧ InventoryLog.change <$> inventory_logs w' = [3]
  ∧ (∃ item, result (create_item (kale_request 3)) empty_store
             = Returned item
             ∧ InventoryItem.trayCount item = 6
             ∧ logged_total (InventoryItem.id item) (inventory_logs w') = 3)
  ∧ ¬ conserved w'.
Proof.
  split; [by vm_compute|]. split; [by vm_compute|]. split.
  - eexists. split; [by vm_compute|]. by vm_compute.
  - intros Hcons. apply Forall_cons in Hcons as [Hcount _].
    by vm_compute in Hcount.
Qed.

(** A refused order that is rolled back: the second line asks for more
    than batch B holds; batch A is debited, then credited back. *)
Example create_order_short_rolls_back :
  let place := create_order example_settings example_uuid in
  let w' := after (place short_order) two_batches in
  (∃ msg, result (place short_order) two_batches
          = Raised (mkHTTPException 400 msg))
  ∧ orders w' = []
  ∧ InventoryItem.trayCount <$> inventory_items w' = [3; 1]
  ∧ (λ log, (InventoryLog.itemId log, InventoryLog.change log))
      <$> inventory_logs w' = [("A", -2); ("A", 2)].
Proof.
  split; [eexists; by vm_compute|]. by vm_compute.
Qed.

(** C2.  An order whose second line names a batch that is not in the
    store: the request fails with status 404 and nothing is appended to
    [orders], but the debit of the first line stays: batch A is left with
    one tray of its three, and the log holds the debit and no credit. *)
Theorem create_order_stray_line_keeps_debit :
  let place := create_order example_settings example_uuid in
  let w' := after (place stray_order) two_batches in
  result (place stray_order) two_batches
  = Raised (mkHTTPException 404 "Inventory item Z for order item 2 not found")
  ∧ orders w' = []
  ∧ InventoryItem.trayCount <$> inventory_items two_batches = [3; 1]
  ∧ InventoryItem.trayCount <$> inventory_items w' = [1; 1]
  ∧ (λ log, (InventoryLog.itemId log, InventoryLog.change log))
      <$> inventory_logs w' = [("A", -2)].
Proof. by vm_compute. Qed.

(** C5, counterexample.  The stored order is completed; updating it to
    cancelled credits its two trays back to batch A and logs the credit. *)
Lemma update_order_status_completed_counterexample :
  let update_status := update_order_status example_settings example_uuid in
  let w := store_with_order "completed" in
  let w' := after (update_status "o1" "cancelled") w in
  Order.status <$> orders w = ["completed"]
  ∧ InventoryItem.trayCount <$> inventory_items w = [3; 1]
  ∧ inventory_logs w = []
  ∧ InventoryItem.trayCount <$> inventory_items w' = [5; 1]
  ∧ (λ log, (InventoryLog.itemId log, InventoryLog.change log, InventoryLog.reason log))
      <$> inventory_logs w' = [("A", 2, "Order o1 cancelled")]
  ∧ ledger w' ≠ ledger w.
Proof.
  repeat (split; [by vm_compute|]).
  intros Hledger. by vm_compute in Hledger.
Qed.

(** C6, counterexample.  A request without lines is accepted and stored. *)
Lemma create_order_empty_counterexample :
  let place := create_order example_settings example_uuid in
  let w' := after (place empty_order) two_batches in
  OrderBody.items empty_order = []
  ∧ ∃ order,
      result (place empty_order) two_batches = Returned order
      ∧ Order.items order = []
      ∧ Order.status order = "pending"
      ∧ orders two_batches = []
      ∧ orders w' = [order].
Proof.
  split; [done|]. eexists. split; [by vm_compute|]. by vm_compute.
Qed.

(** C10, counterexample.  A batch is created, then removed; it has
    existed and its two log entries are still in the log, yet the logs
    endpoint answers 404. *)
Lemma get_inventory_item_logs_removed_counterexample :
  let create_item := create_inventory_item example_settings example_uuid in
  let delete_item := delete_inventory_item example_settings example_uuid in
  let w1 := after (create_item (kale_request 3)) empty_store in
  let w2 := after (delete_item "uuid-0") w1 in
  InventoryItem.id <$> inventory_items w1 = ["uuid-0"]
  ∧ result (delete_item "uuid-0") w1 = Returned tt
  ∧ (λ log, (InventoryLog.itemId log, InventoryLog.change log))
      <$> inventory_logs w2 = [("uuid-0", 3); ("uuid-0", -6)]
  ∧ result (get_inventory_item_logs "uuid-0") w2
    = Raised (mkHTTPException 404 "Inventory item not found").
Proof. by vm_compute. Qed.

(** C8, counterexample.  Three daily totals, one, two and two, and an
    oracle that raises: each of the seven predictions is 1.7, which is not
    the mean 5/3 of the totals.  And with a horizon of 500000 weeks no
    result is returned at all. *)
Lemma get_demand_forecast_rounding_counterexample :
  let df := demand_frame example_settings three_sales in
  snd <$> df = [1; 2; 2]
  ∧ failing_oracle df (1 * 7) = None
  ∧ forecasts_cache three_sales !! (date_of (clock three_sales), 1) = None
  ∧ (∃ forecast,
       (get_demand_forecast example_settings failing_oracle 1 three_sales).1
       = Ended (Returned forecast)
       ∧ length (Forecast.predictions forecast) = 7%nat
       ∧ Forall (λ p, ForecastPoint.predictedTrays p = (17 # 10)%Q
                      ∧ ¬ (ForecastPoint.predictedTrays p
                           == mean_or_zero (snd <$> df))%Q)
                (Forecast.predictions forecast))
  ∧ get_demand_forecast example_settings failing_oracle 500000 three_sales
    = (Stopped OverflowError, three_sales).
Proof.
  split; [by vm_compute|]. split; [done|]. split; [by vm_compute|].
  split; [|by vm_compute].
  eexists. split; [by vm_compute|]. split; [done|].
  repeat (apply Forall_cons; split;
          [split; [done|]; intros Heq; by vm_compute in Heq|]).
  apply Forall_nil_2.
Qed.

(** ** The theorems at work on the example stores *)

(** C3 on batch A (three trays): a delta of minus five is refused, and a
    run of three calls (one refused, two applied) leaves no negative count. *)
Lemma adjust_inventory_InvalidAdjustment_witness :
  let adjust := adjust_inventory example_settings example_uuid in
  let calls := [mkAdjustCall "A" (-5) "count" "system";
                mkAdjustCall "A" (-3) "sale" "system";
                mkAdjustCall "B" 4 "harvest" "system"] in
  find_index (λ item, InventoryItem.id item = "A") (inventory_items two_batches)
  = Some (0%nat, kale)
  ∧ non_negative two_batches
  ∧ ((∃ e, result (adjust "A" (-5) "count" "system") two_batches = Raised e)
     ↔ InventoryItem.trayCount kale + -5 < 0)
  ∧ (∃ msg, adjust "A" (-5) "count" "system" two_batches
            = (Raised (mkHTTPException 400 msg), two_batches))
  ∧ non_negative (adjust_sequence example_settings example_uuid calls two_batches).
Proof.
  intros adjust calls.
  assert (find_index (λ item, InventoryItem.id item = "A") (inventory_items two_batches)
          = Some (0%nat, kale)) as Hfind by reflexivity.
  assert (non_negative two_batches) as Hnn
    by (repeat constructor; simpl; lia).
  destruct (adjust_inventory_InvalidAdjustment example_settings example_uuid)
    as [Hone Hseq].
  destruct (Hone two_batches "A" (-5) "count" "system" 0%nat kale Hfind)
    as [Hiff Hraise].
  split; [exact Hfind|]. split; [exact Hnn|]. split; [exact Hiff|].
  split; [apply Hraise; simpl; lia|].
  exact (Hseq calls two_batches Hnn).
Defined.

(** C7 on batch C (six trays, threshold five): a delta of minus two lands
    on four and emits one alert; a delta of minus one lands on the
    threshold and emits none. *)
Lemma adjust_inventory_low_stock_alert_witness :
  let adjust := adjust_inventory example_settings example_uuid in
  let w2 := after (adjust "C" (-2) "sale" "system") radish_store in
  let w1 := after (adjust "C" (-1) "sale" "system") radish_store in
  low_stock_threshold example_settings = 5
  ∧ find_index (λ item, InventoryItem.id item = "C") (inventory_items radish_store)
    = Some (0%nat, radish)
  ∧ (notifications w2
       = [Notification.mk "uuid-0" "Low inventory: Radish down to 4 trays" "alert"
            example_clock false]
     ∧ email_calls w2
       = [("Inventory Alert: Radish", "Low inventory: Radish down to 4 trays")])
  ∧ (notifications w1 = [] ∧ email_calls w1 = []).
Proof.
  intros adjust w2 w1.
  assert (find_index (λ item, InventoryItem.id item = "C") (inventory_items radish_store)
          = Some (0%nat, radish)) as Hfind by reflexivity.
  destruct (adjust_inventory_low_stock_alert example_settings example_uuid)
    as [Happlied _].
  split; [reflexivity|]. split; [exact Hfind|]. split.
  - destruct (Happlied radish_store "C" (-2) "sale" "system" 0%nat radish Hfind)
      as (Hemit & _); [simpl; lia|].
    apply Hemit. simpl. lia.
  - destruct (Happlied radish_store "C" (-1) "sale" "system" 0%nat radish Hfind)
      as (_ & _ & Hboundary & _); [simpl; lia|].
    apply Hboundary. reflexivity.
Defined.

(** C9 on batch A: an update that keeps the count of three is stored, one
    that asks for four is refused. *)
Lemma update_inventory_item_keeps_trayCount_witness :
  let keep := InventoryItemBody.mk None "Red Kale" 3 0 (Some (Some (1 # 2)%Q)) "sold" in
  let grow := InventoryItemBody.mk None "Red Kale" 4 0 None "sold" in
  let w' := after (update_inventory_item "A" keep) two_batches in
  find_index (λ item, InventoryItem.id item = "A") (inventory_items two_batches)
  = Some (0%nat, kale)
  ∧ InventoryItem.trayCount <$> inventory_items w' = [3; 1]
  ∧ (∃ msg, update_inventory_item "A" grow two_batches
            = (Raised (mkHTTPException 400 msg), two_batches))
  ∧ (∀ r, result (update_inventory_item "A" keep) two_batches = Returned r →
          InventoryItem.trayCount r = 3
          ∧ w' = set_inventory_items (<[0%nat := r]> (inventory_items two_batches))
                   two_batches).
Proof.
  intros keep grow w'.
  assert (find_index (λ item, InventoryItem.id item = "A") (inventory_items two_batches)
          = Some (0%nat, kale)) as Hfind by reflexivity.
  split; [exact Hfind|]. split; [|split].
  - exact (proj1 (update_inventory_item_keeps_trayCount two_batches "A" keep)).
  - destruct (update_inventory_item_keeps_trayCount two_batches "A" grow)
      as [_ Hfound].
    destruct (Hfound 0%nat kale Hfind) as [Hrefused _].
    apply Hrefused. simpl. lia.
  - destruct (update_inventory_item_keeps_trayCount two_batches "A" keep)
      as [_ Hfound].
    destruct (Hfound 0%nat kale Hfind) as [_ Hstored].
    exact Hstored.
Defined.

(** C10 on batch A of [two_batches]: its logs are served while it is in
    the store and answered with 404 once it is deleted. *)
Lemma get_inventory_item_logs_NotFound_witness :
  let delete_item := delete_inventory_item example_settings example_uuid in
  let w' := after (delete_item "A") two_batches in
  "A" ∈ InventoryItem.id <$> inventory_items two_batches
  ∧ NoDup (InventoryItem.id <$> inventory_items two_batches)
  ∧ get_inventory_item_logs "A" two_batches = (Returned [], two_batches)
  ∧ result (delete_item "A") two_batches = Returned tt
  ∧ inventory_logs w'
    = [InventoryLog.mk "log-id" "A" (-3) "Item deleted" example_clock "system"]
  ∧ result (get_inventory_item_logs "A") w'
    = Raised (mkHTTPException 404 "Inventory item not found").
Proof.
  intros delete_item w'.
  assert ("A" ∈ InventoryItem.id <$> inventory_items two_batches) as Hin
    by (simpl; apply list_elem_of_here).
  assert (NoDup (InventoryItem.id <$> inventory_items two_batches)) as Hnd
    by (simpl; apply NoDup_cons; split;
        [by intros ?%list_elem_of_singleton|apply NoDup_singleton]).
  destruct (get_inventory_item_logs_NotFound example_settings example_uuid)
    as [Hread Hremoved].
  split; [exact Hin|]. split; [exact Hnd|]. split.
  - exact (proj1 (Hread two_batches "A") Hin).
  - exact (Hremoved two_batches "A" 0%nat kale Hnd eq_refl).
Defined.

(** C4 on a stored order that is already cancelled, and on a pending one
    cancelled twice. *)
Lemma cancel_order_idempotent_witness :
  let update_status := update_order_status example_settings example_uuid in
  let cancel := cancel_order example_settings example_uuid in
  let w := store_with_order "cancelled" in
  let order := stored_order "o1" "cancelled" (days 99) 2 in
  let once := after (cancel "o1") (store_with_order "pending") in
  find_index (λ o, Order.id o = "o1") (orders w) = Some (0%nat, order)
  ∧ Order.status order = "cancelled"
  ∧ update_status "o1" "cancelled" w = (Returned order, w)
  ∧ cancel "o1" w = (Returned tt, w)
  ∧ after (cancel "o1") once = once.
Proof.
  intros update_status cancel w order once.
  destruct (cancel_order_idempotent example_settings example_uuid)
    as [Hnoop Htwice].
  destruct (Hnoop w "o1" 0%nat order eq_refl eq_refl) as [Hupdate Hcancel].
  split; [reflexivity|]. split; [reflexivity|].
  split; [exact Hupdate|]. split; [exact Hcancel|].
  exact (Htwice (store_with_order "pending") "o1").
Defined.

(** C5 (as amended) on a stored order that is completed: moving it to
    pending leaves the ledger alone; moving it to cancelled credits its two
    trays back to batch A and logs that credit. *)
Lemma update_order_status_ledger_witness :
  let update_status := update_order_status example_settings example_uuid in
  let w := store_with_order "completed" in
  let order := stored_order "o1" "completed" (days 99) 2 in
  let w' := after (update_status "o1" "cancelled") w in
  find_index (λ o, Order.id o = "o1") (orders w) = Some (0%nat, order)
  ∧ debited (order_item_adjustment <$> Order.items order) (inventory_items w)
  ∧ ledger (after (update_status "o1" "pending") w) = ledger w
  ∧ inventory_logs w'
    = [InventoryLog.mk "log-id" "A" 2 "Order o1 cancelled" example_clock "system"]
  ∧ inventory_items w' = [with_trayCount 5 kale; pea_shoots]
  ∧ find_index (λ item, InventoryItem.id item = "A") (inventory_items w')
    = Some (0%nat, with_trayCount 5 kale).
Proof.
  intros update_status w order w'.
  assert (find_index (λ o, Order.id o = "o1") (orders w) = Some (0%nat, order))
    as Hfind by reflexivity.
  assert (debited (order_item_adjustment <$> Order.items order) (inventory_items w))
    as Hdebited.
  { apply Forall_cons. split; [|apply Forall_nil_2].
    split; [simpl; lia|]. exists 0%nat, kale. split; [reflexivity|simpl; lia]. }
  split; [exact Hfind|]. split; [exact Hdebited|]. split.
  - destruct (update_order_status_ledger example_settings example_uuid
                w "o1" "pending" 0%nat order Hfind) as (Hsame & _).
    apply Hsame. right. discriminate.
  - destruct (update_order_status_ledger example_settings example_uuid
                w "o1" "cancelled" 0%nat order Hfind) as (_ & Hreverse).
    destruct Hreverse as (_ & Hall); [reflexivity|discriminate|].
    destruct (Hall Hdebited) as (Hlogs & Hitems & Hcount).
    split; [exact Hlogs|]. split; [exact Hitems|].
    exact (Hcount "A" 0%nat kale eq_refl).
Defined.

(** C6 (as amended) on a request without lines. *)
Lemma create_order_empty_items_witness :
  let place := create_order example_settings example_uuid in
  let w' := after (place empty_order) two_batches in
  let order :=
    Order.mk "uuid-0" "Ada" None example_clock (days 103) "pending" []
      (Some (round_to 2 0%Q)) in
  OrderBody.items empty_order = []
  ∧ result (place empty_order) two_batches = Returned order
  ∧ orders w' = orders two_batches ++ [order]
  ∧ inventory_items w' = inventory_items two_batches
  ∧ inventory_logs w' = inventory_logs two_batches.
Proof.
  intros place w' order. split; [reflexivity|].
  exact (create_order_empty_items example_settings example_uuid two_batches
           empty_order eq_refl).
Defined.

(** C8 (as amended) on a store without orders, four weeks ahead: 28
    predictions of zero, served again from the cache to a caller with
    another oracle; and 500000 weeks ahead: no result. *)
Lemma get_demand_forecast_fallback_witness :
  let today := date_of (clock empty_store) in
  let run := get_demand_forecast example_settings failing_oracle 4 empty_store in
  in_datetime_range (clock empty_store)
  ∧ in_datetime_range (clock empty_store - days 60)
  ∧ in_date_range (today + 7 * 4)
  ∧ forecasts_cache empty_store !! (today, 4) = None
  ∧ (length (demand_frame example_settings empty_store) < 2)%nat
  ∧ (∃ forecast,
       run.1 = Ended (Returned forecast)
       ∧ ForecastPoint.date <$> Forecast.predictions forecast = seqZ 100 28
       ∧ Forall (λ p, ForecastPoint.predictedTrays p = round_to 1 0%Q)
                (Forecast.predictions forecast)
       ∧ get_demand_forecast example_settings silent_oracle 4 run.2
         = (Ended (Returned forecast), run.2))
  ∧ ¬ in_date_range (today + 7 * 500000)
  ∧ get_demand_forecast example_settings failing_oracle 500000 empty_store
    = (Stopped OverflowError, empty_store).
Proof.
  intros today run.
  assert (in_datetime_range (clock empty_store)) as Hclock by (by vm_compute).
  assert (in_datetime_range (clock empty_store - days 60)) as Hstart
    by (by vm_compute).
  assert (in_date_range (today + 7 * 4)) as Hend by (by vm_compute).
  assert (forecasts_cache empty_store !! (today, 4) = None) as Hmiss by reflexivity.
  assert (length (demand_frame example_settings empty_store) < 2)%nat
    as Hshort by (vm_compute; lia).
  assert (¬ in_date_range (today + 7 * 500000)) as Hfar
    by (intros [_ Hmax]; by vm_compute in Hmax).
  split; [exact Hclock|]. split; [exact Hstart|]. split; [exact Hend|].
  split; [exact Hmiss|]. split; [exact Hshort|]. split; [|split; [exact Hfar|]].
  - destruct (get_demand_forecast_fallback example_settings failing_oracle
                silent_oracle empty_store 4 Hclock Hstart) as [_ Hwithin].
    destruct (Hwithin Hend Hmiss (or_introl Hshort))
      as (forecast & Hres & _ & _ & Hdates & Hconst & _ & _ & Hagain).
    exists forecast. split; [exact Hres|]. split; [exact Hdates|].
    split; [exact Hconst|]. exact (Hagain run.2 eq_refl eq_refl).
  - destruct (get_demand_forecast_fallback example_settings failing_oracle
                silent_oracle empty_store 500000 Hclock Hstart) as [Hbeyond _].
    exact (Hbeyond Hfar).
Defined.

(** ** The further properties on the example stores *)


(** X2 on [two_batches]: deleting batch A, which holds three trays,
    leaves batch B alone and raises the alert of a count of zero. *)
Lemma delete_inventory_item_effect_witness :
  let delete_item := delete_inventory_item example_settings example_uuid in
  let w' := after (delete_item "A") two_batches in
  find_index (λ item, InventoryItem.id item = "A") (inventory_items two_batches)
  = Some (0%nat, kale)
  ∧ result (delete_item "A") two_batches = Returned tt
  ∧ inventory_items w' = [pea_shoots]
  ∧ notifications w'
    = [Notification.mk "uuid-0" "Low inventory: Kale down to 0 trays" "alert"
         example_clock false]
  ∧ delete_item "Z" two_batches
    = (Raised (mkHTTPException 404 "Inventory item not found"), two_batches).
Proof.
  intros delete_item w'.
  destruct (delete_inventory_item_effect example_settings example_uuid
              two_batches "A") as [_ Hfound].
  destruct (Hfound 0%nat kale eq_refl) as (Hres & Hitems & _ & Halert & _).
  destruct (delete_inventory_item_effect example_settings example_uuid
              two_batches "Z") as [Hmissing _].
  split; [reflexivity|]. split; [exact Hres|]. split; [exact Hitems|]. split.
  - apply Halert; reflexivity.
  - apply Hmissing. simpl. intros Hin.
    apply elem_of_cons in Hin as [Heq|Hin]; [discriminate|].
    apply list_elem_of_singleton in Hin. discriminate.
Defined.

(** X3 on [two_batches]: one tray of batch A logged by a user. *)
Lemma create_inventory_log_effect_witness :
  let body := InventoryLog.mk "any" "A" (-1) "tasting" 0 "dana" in
  let adjust := adjust_inventory example_settings example_uuid "A" (-1) "tasting" "dana" in
  let entry := InventoryLog.mk "log-id" "A" (-1) "tasting" example_clock "dana" in
  InventoryLog.itemId body = "A"
  ∧ result adjust two_batches = Returned tt
  ∧ create_inventory_log example_settings example_uuid "A" body two_batches
    = (Returned entry, after adjust two_batches)
  ∧ create_inventory_log example_settings example_uuid "B" body two_batches
    = (Raised (mkHTTPException 400 "Log entry itemId must match path item_id"),
       two_batches).
Proof.
  intros body adjust entry.
  assert (result adjust two_batches = Returned tt) as Hres by reflexivity.
  destruct (create_inventory_log_effect example_settings example_uuid
              two_batches "A" body) as [_ Hsame].
  destruct (Hsame eq_refl) as [_ Happlied].
  destruct (Happlied Hres) as [Hrun _].
  destruct (create_inventory_log_effect example_settings example_uuid
              two_batches "B" body) as [Hother _].
  split; [reflexivity|]. split; [exact Hres|]. split; [exact Hrun|].
  apply Hother. discriminate.
Defined.

(** X4 on the empty store: a request for three trays of kale is stored
    and read back; a request for minus one tray is refused. *)
Lemma create_inventory_item_validation_witness :
  let create_item := create_inventory_item example_settings example_uuid in
  let w' := after (create_item (kale_request 3)) empty_store in
  0 ≤ InventoryItemBody.trayCount (kale_request 3)
  ∧ InventoryItemBody.status (kale_request 3) ∈ allowed_item_statuses
  ∧ (∃ item,
       result (create_item (kale_request 3)) empty_store = Returned item
       ∧ InventoryItem.id item = "uuid-0"
       ∧ InventoryItem.harvestDate item = example_clock
       ∧ inventory_items w' = [item]
       ∧ get_inventory_item "uuid-0" w' = (Returned item, w'))
  ∧ ∃ msg, create_item (kale_request (-1)) empty_store
           = (Raised (mkHTTPException 400 msg), empty_store).
Proof.
  intros create_item w'.
  assert (0 ≤ InventoryItemBody.trayCount (kale_request 3)) as Hcount
    by (simpl; lia).
  assert (InventoryItemBody.status (kale_request 3) ∈ allowed_item_statuses)
    as Hstatus by apply list_elem_of_here.
  split; [exact Hcount|]. split; [exact Hstatus|]. split.
  - destruct (create_inventory_item_validation example_settings example_uuid
                empty_store (kale_request 3)) as [_ Haccept].
    destruct (Haccept Hcount Hstatus) as (item & Hres & Hid & _ & _ & Hdate & Hitems & Hget).
    { simpl. apply not_elem_of_nil. }
    exists item. split; [exact Hres|]. split; [exact Hid|]. split; [exact Hdate|].
    split; [exact Hitems|exact Hget].
  - destruct (create_inventory_item_validation example_settings example_uuid
                empty_store (kale_request (-1))) as [Hrefuse _].
    apply Hrefuse. left. simpl. lia.
Defined.

(** The example store [harvested_store] is sound. *)
Lemma harvested_store_sound : ledger_sound harvested_store.
Proof.
  split.
  - unfold unique_ids. simpl. apply NoDup_cons. split.
    + intros Hin. apply list_elem_of_singleton in Hin. discriminate.
    + apply NoDup_singleton.
  - unfold conserved. simpl.
    apply Forall_cons. split; [reflexivity|].
    apply Forall_cons. split; [reflexivity|]. apply Forall_nil_2.
Defined.

(** X5 on [harvested_store]: batch A is marked sold under a new variety
    name. *)
Lemma update_inventory_item_keeps_sound_witness :
  let body := InventoryItemBody.mk None "Red Kale" 3 0 None "sold" in
  InventoryItemBody.id body = None
  ∧ ledger_sound harvested_store
  ∧ ledger_sound (after (update_inventory_item "A" body) harvested_store).
Proof.
  intros body. split; [reflexivity|]. split; [exact harvested_store_sound|].
  exact (update_inventory_item_keeps_sound "A" body (or_introl eq_refl)
           harvested_store harvested_store_sound).
Defined.

(** X6 on a stored order that is completed and is set back to pending. *)
Lemma update_order_status_effect_witness :
  let update_status := update_order_status example_settings example_uuid in
  let w := store_with_order "completed" in
  let order := stored_order "o1" "completed" (days 99) 2 in
  "pending" ∈ valid_statuses
  ∧ find_index (λ o, Order.id o = "o1") (orders w) = Some (0%nat, order)
  ∧ result (update_status "o1" "pending") w = Returned (with_status "pending" order)
  ∧ orders (after (update_status "o1" "pending") w) = [with_status "pending" order]
  ∧ update_status "o2" "pending" w
    = (Raised (mkHTTPException 404 "Order not found"), w)
  ∧ ∃ msg, update_status "o1" "shipped" w = (Raised (mkHTTPException 400 msg), w).
Proof.
  intros update_status w order.
  assert ("pending" ∈ valid_statuses) as Hvalid by apply list_elem_of_here.
  destruct (update_order_status_effect example_settings example_uuid w "o1" "pending")
    as (_ & _ & Hfound).
  destruct (Hfound Hvalid 0%nat order eq_refl) as [Hres Horders].
  destruct (update_order_status_effect example_settings example_uuid w "o2" "pending")
    as (_ & Hmissing & _).
  destruct (update_order_status_effect example_settings example_uuid w "o1" "shipped")
    as (Hinvalid & _).
  split; [exact Hvalid|]. split; [reflexivity|]. split; [exact Hres|].
  split; [exact Horders|]. split.
  - apply (Hmissing Hvalid). simpl. intros Hin.
    apply list_elem_of_singleton in Hin. discriminate.
  - apply Hinvalid. unfold valid_statuses. intros Hin.
    repeat (apply elem_of_cons in Hin as [Heq|Hin]; [discriminate|]).
    by apply elem_of_nil in Hin.
Defined.


Lemma example_lines_quantities :
  Forall (λ line, 0 ≤ OrderItemBody.quantity line) (OrderBody.items short_order)
  ∧ Forall (λ line, 0 ≤ OrderItemBody.quantity line) (OrderBody.items small_order).
Proof.
  split; repeat (apply Forall_cons; split; [simpl; lia|]); apply Forall_nil_2.
Defined.


(** X8 on [two_batches]: two trays of kale at the default price and one
    of pea shoots at 12 come to 32. *)
Lemma create_order_accepted_witness :
  let place := create_order example_settings example_uuid in
  let w' := after (place whole_order) two_batches in
  Forall (λ line, 0 ≤ OrderItemBody.quantity line) (OrderBody.items whole_order)
  ∧ Forall whole_price (OrderBody.items whole_order)
  ∧ whole_total (OrderBody.items whole_order) = 32
  ∧ ∃ order,
      result (place whole_order) two_batches = Returned order
      ∧ Order.id order = "uuid-0"
      ∧ Order.status order = "pending"
      ∧ stored_line <$> Order.items order
        = [("uuid-0", "A", "Kale", 2, Some 10%Q);
           ("uuid-0", "B", "Pea Shoots", 1, Some 12%Q)]
      ∧ (∃ total, Order.total_price order = Some total ∧ (total == 32)%Q)
      ∧ orders w' = [order]
      ∧ get_order_details "uuid-0" w' = (Returned order, w').
Proof.
  intros place w'.
  assert (Forall (λ line, 0 ≤ OrderItemBody.quantity line)
            (OrderBody.items whole_order)) as Hqtys.
  { repeat (apply Forall_cons; split; [simpl; lia|]). apply Forall_nil_2. }
  assert (Forall whole_price (OrderBody.items whole_order)) as Hwhole.
  { repeat (apply Forall_cons; split; [by vm_compute|]). apply Forall_nil_2. }
  assert (∃ order, result (place whole_order) two_batches = Returned order)
    as [order Hrun] by (eexists; vm_compute; reflexivity).
  destruct (create_order_accepted example_settings example_uuid two_batches
              whole_order order Hqtys Hrun)
    as (Hid & Hstatus & _ & Hlines & Htotal & Horders & _ & Hget).
  split; [exact Hqtys|]. split; [exact Hwhole|]. split; [reflexivity|].
  exists order. split; [exact Hrun|]. split; [exact Hid|]. split; [exact Hstatus|].
  split; [exact Hlines|]. split; [|split; [exact Horders|]].
  - apply Htotal; [exact Hwhole|reflexivity].
  - apply Hget. simpl. apply not_elem_of_nil.
Defined.

(** X9 on [two_batches]: the same order placed, then cancelled. *)
Lemma create_then_cancel_restores_witness :
  let place := create_order example_settings example_uuid in
  let cancel := cancel_order example_settings example_uuid in
  let w1 := after (place small_order) two_batches in
  ∃ order,
    result (place small_order) two_batches = Returned order
    ∧ InventoryItem.trayCount <$> inventory_items w1 = [1; 0]
    ∧ result (cancel (Order.id order)) w1 = Returned tt
    ∧ inventory_items (after (cancel (Order.id order)) w1)
      = inventory_items two_batches
    ∧ orders (after (cancel (Order.id order)) w1) = [with_status "cancelled" order].
Proof.
  intros place cancel w1.
  assert (∃ order, result (place small_order) two_batches = Returned order)
    as [order Hrun] by (eexists; vm_compute; reflexivity).
  destruct (create_then_cancel_restores example_settings example_uuid two_batches
              small_order order (proj2 example_lines_quantities)) as (Hres & Hitems & Horders).
  { simpl. apply not_elem_of_nil. }
  { exact Hrun. }
  exists order. split; [exact Hrun|]. split; [vm_compute; reflexivity|].
  split; [exact Hres|]. split; [exact Hitems|exact Horders].
Defined.

(** X10 on three alerts, the first already read: the second is marked. *)
Lemma mark_notification_read_effect_witness :
  let w := store_with_alerts in
  let w' := after (mark_notification_read "n2") w in
  find_index (λ n, Notification.id n = "n2") (notifications w)
  = Some (1%nat, alert_of "n2" false)
  ∧ NoDup (Notification.id <$> notifications w)
  ∧ notifications w' = [alert_of "n1" true; alert_of "n2" true; alert_of "n3" false]
  ∧ mark_notification_read "n2" w' = (Returned (alert_of "n2" true), w')
  ∧ get_notifications (Some true) w' = (Returned [alert_of "n3" false], w')
  ∧ mark_notification_read "n9" w
    = (Raised (mkHTTPException 404 "Notification not found"), w).
Proof.
  intros w w'.
  assert (NoDup (Notification.id <$> notifications w)) as Hnd.
  { simpl. repeat (apply NoDup_cons; split;
                   [intros Hin;
                    repeat (apply elem_of_cons in Hin as [Heq|Hin]; [discriminate|]);
                    by apply elem_of_nil in Hin|]).
    apply NoDup_nil_2. }
  destruct (mark_notification_read_effect w "n2") as [_ Hfound].
  destruct (Hfound 1%nat (alert_of "n2" false) eq_refl) as (Hrun & Hagain & Hunread).
  destruct (mark_notification_read_effect w "n9") as [Hmissing _].
  split; [reflexivity|]. split; [exact Hnd|]. split; [reflexivity|].
  split; [exact Hagain|]. split; [exact (Hunread Hnd)|].
  apply Hmissing. simpl. intros Hin.
  repeat (apply elem_of_cons in Hin as [Heq|Hin]; [discriminate|]).
  by apply elem_of_nil in Hin.
Defined.

(** X12 on the example plantings, at noon of day 100: radish planted a day
    and a half before is growing; radish planted on the last day of the
    year 9999 stops the call; there is no variety 8. *)
Lemma create_planting_effect_witness :
  let radish_variety := CropVariety.mk 3 "Radish" 8 150%Q in
  let body := PlantingCreate.mk 3 (days 99) 4 None in
  let late := PlantingCreate.mk 3 (days date_max) 4 None in
  let p := TrayPlanting.mk 5 3 (days 99) (days 107) "growing" 4 in
  radish_variety ∈ varieties
  ∧ in_datetime_range (days 99 + days 8)
  ∧ in_datetime_range (example_clock - days 1)
  ∧ ¬ in_datetime_range (days date_max + days 8)
  ∧ create_planting example_clock body example_plantings
    = (Ended (Returned p), example_plantings ++ [p])
  ∧ Forall (λ q, TrayPlanting.id q < 5) example_plantings
  ∧ create_planting example_clock late example_plantings
    = (Stopped OverflowError, example_plantings)
  ∧ create_planting example_clock (PlantingCreate.mk 8 (days 99) 4 None)
      example_plantings
    = (Ended (Raised (mkHTTPException 404 "Variety not found")), example_plantings).
Proof.
  intros radish_variety body late p.
  assert (radish_variety ∈ varieties) as Hmem
    by (unfold varieties; do 2 apply list_elem_of_further; apply list_elem_of_here).
  assert (in_datetime_range (days 99 + days 8)) as Hexpected by (by vm_compute).
  assert (in_datetime_range (example_clock - days 1)) as Hday by (by vm_compute).
  assert (¬ in_datetime_range (days date_max + days 8)) as Hlate
    by (intros [_ Hmax]; by vm_compute in Hmax).
  destruct (create_planting_effect example_clock body example_plantings)
    as (_ & _ & Hknown).
  destruct (Hknown radish_variety Hmem eq_refl) as [_ Hreturns].
  destruct (Hreturns Hexpected Hday)
    as (p' & Hrun & _ & _ & _ & _ & Hbelow & _).
  assert (create_planting example_clock body example_plantings
          = (Ended (Returned p), example_plantings ++ [p])) as Hrun'
    by (vm_compute; reflexivity).
  assert (p' = p) as -> by congruence.
  destruct (create_planting_effect example_clock late example_plantings)
    as (_ & _ & Hknown').
  destruct (Hknown' radish_variety Hmem eq_refl) as [Hstops _].
  destruct (create_planting_effect example_clock
              (PlantingCreate.mk 8 (days 99) 4 None) example_plantings)
    as [Hunknown _].
  split; [exact Hmem|]. split; [exact Hexpected|]. split; [exact Hday|].
  split; [exact Hlate|]. split; [exact Hrun|]. split; [exact Hbelow|].
  split; [exact (Hstops (or_introl Hlate))|].
  apply Hunknown. right. simpl. lia.
Defined.

(** X13 on the example plantings, at noon of day 100. *)
Lemma get_plantings_effect_witness :
  let ps := get_plantings example_clock example_plantings in
  example_plantings !! 0%nat = Some (planting_of 1 "growing" (days 99))
  ∧ example_plantings !! 1%nat = Some (planting_of 4 "growing" (days 105))
  ∧ ps !! 0%nat = Some (planting_of 1 "ready" (days 99))
  ∧ ps !! 1%nat = Some (planting_of 4 "growing" (days 105))
  ∧ get_plantings (example_clock + days 1) ps
    = get_plantings (example_clock + days 1) example_plantings.
Proof.
  intros ps.
  destruct (get_plantings_effect example_clock example_plantings)
    as (_ & Heach & _ & Hlater).
  destruct (Heach 0%nat (planting_of 1 "growing" (days 99)) eq_refl) as [_ Hdue].
  destruct (Heach 1%nat (planting_of 4 "growing" (days 105)) eq_refl) as [Hkeep _].
  split; [reflexivity|]. split; [reflexivity|]. split; [|split].
  - apply Hdue. split; [reflexivity|]. vm_compute. discriminate.
  - apply Hkeep. right. reflexivity.
  - apply Hlater. unfold days, seconds_per_day. lia.
Defined.

(** X14 on [three_sales], with an oracle that raises: two weeks ahead, and
    110000 weeks back. *)
Lemma get_demand_forecast_caches_witness :
  let forecast_for := get_demand_forecast example_settings failing_oracle in
  let today := date_of (clock three_sales) in
  let w' := (forecast_for 2 three_sales).2 in
  in_datetime_range (clock three_sales)
  ∧ in_datetime_range (clock three_sales - days 60)
  ∧ in_date_range (today + 7 * 2)
  ∧ forecasts_cache three_sales !! (today, 2) = None
  ∧ (∃ forecast,
       (forecast_for 2 three_sales).1 = Ended (Returned forecast)
       ∧ forecast_for 2 w' = (Ended (Returned forecast), w')
       ∧ Forecast.periodStart forecast = 100
       ∧ Forecast.periodEnd forecast = 114
       ∧ Forall (λ p, 100 ≤ ForecastPoint.date p ≤ 114) (Forecast.predictions forecast)
       ∧ Forecast.predictions forecast ≠ [])
  ∧ ¬ in_date_range (today + 7 * -110000)
  ∧ forecast_for (-110000) three_sales = (Stopped OverflowError, three_sales).
Proof.
  intros forecast_for today w'.
  assert (in_datetime_range (clock three_sales)) as Hclock by (by vm_compute).
  assert (in_datetime_range (clock three_sales - days 60)) as Hstart
    by (by vm_compute).
  assert (in_date_range (today + 7 * 2)) as Hend by (by vm_compute).
  assert (forecasts_cache three_sales !! (today, 2) = None) as Hmiss by reflexivity.
  assert (¬ in_date_range (today + 7 * -110000)) as Hfar
    by (intros [Hmin _]; by vm_compute in Hmin).
  split; [exact Hclock|]. split; [exact Hstart|]. split; [exact Hend|].
  split; [exact Hmiss|]. split; [|split; [exact Hfar|]].
  - destruct (get_demand_forecast_caches example_settings failing_oracle three_sales 2
                Hclock Hstart) as [_ Hwithin].
    destruct (Hwithin Hend)
      as (forecast & Hres & _ & Hagain & _ & _ & _ & _ & Hcomputed).
    destruct (Hcomputed Hmiss) as (Hfrom & Hto & Hspan & Hsome).
    exists forecast. split; [exact Hres|]. split; [exact Hagain|].
    split; [exact Hfrom|]. split; [exact Hto|]. split; [exact Hspan|].
    apply Hsome. reflexivity.
  - destruct (get_demand_forecast_caches example_settings failing_oracle three_sales
                (-110000) Hclock Hstart) as [Hbeyond _].
    exact (Hbeyond Hfar).
Defined.

(** X15 on [three_sales]: three days, five trays; and a window of a
    million days, which starts before the year 1. *)
Lemma get_historical_sales_totals_witness :
  in_datetime_range (clock three_sales)
  ∧ in_datetime_range (clock three_sales - days 60)
  ∧ (∃ records,
       get_historical_sales example_settings 60 three_sales = Ended (Returned records)
       ∧ SalesRecord.date <$> records = [97; 98; 99]
       ∧ sumZ (SalesRecord.totalTraysSold <$> records) = 5
       ∧ sumZ (trays_in_order
                 <$> filter (counted_sale 60 three_sales) (orders three_sales)) = 5
       ∧ ∃ o, o ∈ orders three_sales ∧ counted_sale 60 three_sales o
              ∧ date_of (Order.orderDate o) = 98)
  ∧ ¬ in_datetime_range (clock three_sales - days 1000000)
  ∧ get_historical_sales example_settings 1000000 three_sales
    = Stopped OverflowError.
Proof.
  assert (in_datetime_range (clock three_sales)) as Hclock by (by vm_compute).
  assert (in_datetime_range (clock three_sales - days 60)) as Hstart
    by (by vm_compute).
  assert (¬ in_datetime_range (clock three_sales - days 1000000)) as Hfar
    by (intros [Hmin _]; by vm_compute in Hmin).
  split; [exact Hclock|]. split; [exact Hstart|]. split; [|split; [exact Hfar|]].
  - destruct (get_historical_sales_totals example_settings 60 three_sales Hclock)
      as [_ Hwithin].
    destruct (Hwithin Hstart) as (records & Hrun & _ & Hdays & Htotal).
    assert (get_historical_sales example_settings 60 three_sales
            = Ended (Returned
                       [SalesRecord.mk "sales-id" 97 1 None;
                        SalesRecord.mk "sales-id" 98 2 None;
                        SalesRecord.mk "sales-id" 99 2 None])) as Hrun'
      by (by vm_compute).
    assert (records = [SalesRecord.mk "sales-id" 97 1 None;
                       SalesRecord.mk "sales-id" 98 2 None;
                       SalesRecord.mk "sales-id" 99 2 None]) as Hrecords
      by congruence.
    exists records. split; [exact Hrun|].
    split; [by rewrite Hrecords|]. split; [by rewrite Hrecords|]. split.
    + etransitivity; [symmetry; exact Htotal|by rewrite Hrecords].
    + apply Hdays. rewrite Hrecords.
      apply list_elem_of_further, list_elem_of_here.
  - destruct (get_historical_sales_totals example_settings 1000000 three_sales Hclock)
      as [Hbeyond _].
    exact (Hbeyond Hfar).
Defined.

(** X16 on [harvested_store]: a sale, an order, its cancellation and the
    removal of a batch.  The alert of the sale draws the first uuid, so
    that the order is [uuid-1]. *)
Lemma perform_all_conserved_witness :
  let ops := [Adjust (mkAdjustCall "A" (-1) "sale" "system");
              PlaceOrder small_order;
              CancelOrder "uuid-1";
              RemoveBatch "B"] in
  ledger_sound harvested_store
  ∧ ledger_sound (perform_all example_settings example_uuid ops harvested_store).
Proof.
  intros ops. split; [exact harvested_store_sound|].
  exact (perform_all_conserved example_settings example_uuid ops harvested_store
           harvested_store_sound).
Defined.

(** X17 on [two_batches]: one tray taken from batch A, then read back. *)
Lemma adjust_inventory_read_back_witness :
  let adjust := adjust_inventory example_settings example_uuid in
  let w' := after (adjust "A" (-1) "sale" "system") two_batches in
  find_index (λ item, InventoryItem.id item = "A") (inventory_items two_batches)
  = Some (0%nat, kale)
  ∧ 0 ≤ InventoryItem.trayCount kale + -1
  ∧ get_inventory_item "A" w' = (Returned (with_trayCount 2 kale), w')
  ∧ get_inventory_item_logs "A" w'
    = (Returned [InventoryLog.mk "log-id" "A" (-1) "sale" example_clock "system"], w').
Proof.
  intros adjust w'.
  assert (0 ≤ InventoryItem.trayCount kale + -1) as Hpos by (simpl; lia).
  split; [reflexivity|]. split; [exact Hpos|].
  exact (adjust_inventory_read_back example_settings example_uuid two_batches
           "A" (-1) "sale" "system" 0%nat kale eq_refl Hpos).
Defined.
